(** * A shallow embedding of [Forth_resolution.py]

    The program is a small Forth-like calculator: a [Stack] of integers and a
    [Calculator] that owns a stack and two word tables.  Python objects are
    mutable and survive an exception, so every method is modelled as a
    function from the instance state to an outcome (a returned value or a
    raised exception) paired with the instance state it leaves behind.

    Text is modelled on Stdlib strings, read as Python [str] values whose
    code points are below 256.  The integer-to-string digit limit of recent
    CPython versions (an interpreter setting) is not part of the model.

    A user-defined word calls [evaluate] again, so [evaluate] takes the
    number of calls the Python call stack still allows; running out of it is
    Python's [RecursionError]. *)

From Stdlib Require Import ZArith NArith Ascii String QArith Qround.
From stdpp Require Import base option list gmap strings.

Local Open Scope string_scope.
Local Open Scope Z_scope.
Local Open Scope list_scope.

(** ** Python [str] methods used by the program *)

Module PyStr.

Definition between (lo hi n : N) : bool := ((lo <=? n) && (n <=? hi))%N.

(** [ch.isspace()], the separator set of [str.split()] and [str.strip()]. *)
Definition isspace_char (ch : ascii) : bool :=
  let n := N_of_ascii ch in
  between 9 13 n || between 28 32 n || (n =? 133)%N || (n =? 160)%N.

(** Decimal digits, the only characters [int()] accepts here. *)
Definition isdecimal_char (ch : ascii) : bool :=
  between 48 57 (N_of_ascii ch).

(** [ch.isdigit()]: decimal digits and the superscripts 1, 2 and 3. *)
Definition isdigit_char (ch : ascii) : bool :=
  let n := N_of_ascii ch in
  between 48 57 n || (n =? 178)%N || (n =? 179)%N || (n =? 185)%N.

Definition lower_char (ch : ascii) : ascii :=
  let n := N_of_ascii ch in
  if between 65 90 n || (between 192 222 n && negb (n =? 215)%N)
  then ascii_of_N (n + 32)
  else ch.

(** [s.lower()] *)
Fixpoint lower (s : string) : string :=
  match s with
  | EmptyString => EmptyString
  | String ch s' => String (lower_char ch) (lower s')
  end.

Fixpoint all_chars (p : ascii → bool) (s : string) : bool :=
  match s with
  | EmptyString => true
  | String ch s' => p ch && all_chars p s'
  end.

(** [s.isdigit()]: false on the empty string. *)
Definition isdigit (s : string) : bool :=
  match s with
  | EmptyString => false
  | _ => all_chars isdigit_char s
  end.

Fixpoint int_acc (acc : Z) (s : string) : Z :=
  match s with
  | EmptyString => acc
  | String ch s' => int_acc (10 * acc + (Z.of_N (N_of_ascii ch) - 48)) s'
  end.

(** [int(s)] for a string that passed [isdigit]: [None] stands for the
    [ValueError] raised on a superscript digit. *)
Definition int (s : string) : option Z :=
  match s with
  | EmptyString => None
  | _ => if all_chars isdecimal_char s then Some (int_acc 0 s) else None
  end.

(** [s.split(sep)] for a one-character separator. *)
Fixpoint split_on (sep : ascii) (s : string) : list string :=
  match s with
  | EmptyString => [EmptyString]
  | String ch s' =>
      if Ascii.eqb ch sep then EmptyString :: split_on sep s'
      else match split_on sep s' with
           | piece :: pieces => String ch piece :: pieces
           | [] => [String ch EmptyString]
           end
  end.

(** [s.split(" ", 1)] *)
Fixpoint split_space_once (s : string) : list string :=
  match s with
  | EmptyString => [EmptyString]
  | String ch s' =>
      if Ascii.eqb ch " " then [EmptyString; s']
      else match split_space_once s' with
           | piece :: pieces => String ch piece :: pieces
           | [] => [String ch EmptyString]
           end
  end.

(** [s.split()]: the maximal runs of non-whitespace characters. *)
Fixpoint split (s : string) : list string :=
  match s with
  | EmptyString => []
  | String ch s' =>
      if isspace_char ch then split s'
      else match s' with
           | EmptyString => [String ch EmptyString]
           | String ch' _ =>
               if isspace_char ch' then String ch EmptyString :: split s'
               else match split s' with
                    | word :: words => String ch word :: words
                    | [] => [String ch EmptyString]
                    end
           end
  end.

Fixpoint lstrip (s : string) : string :=
  match s with
  | EmptyString => EmptyString
  | String ch s' => if isspace_char ch then lstrip s' else s
  end.

Fixpoint rstrip (s : string) : string :=
  match s with
  | EmptyString => EmptyString
  | String ch s' =>
      match rstrip s' with
      | EmptyString => if isspace_char ch then EmptyString else String ch EmptyString
      | kept => String ch kept
      end
  end.

(** [s.strip()] *)
Definition strip (s : string) : string := rstrip (lstrip s).

(** [ch in s] *)
Fixpoint contains (ch : ascii) (s : string) : bool :=
  match s with
  | EmptyString => false
  | String ch' s' => Ascii.eqb ch' ch || contains ch s'
  end.

(** [s.startswith(prefix)] for a one-character prefix. *)
Definition startswith (prefix : ascii) (s : string) : bool :=
  match s with
  | EmptyString => false
  | String ch _ => Ascii.eqb ch prefix
  end.

End PyStr.

(** ** Exceptions and the instance-state monad *)

Inductive value_error : Set :=
  | Undefined_operation          (* raise ValueError("Undefined operation") *)
  | Not_enough_values_to_unpack  (* word_name, definition = ... *)
  | Invalid_literal_for_int.     (* int(word) *)

Inductive exception : Set :=
  | StackUnderflowError
  | ZeroDivisionError
  | ValueError (why : value_error)
  | IndexError
  | KeyError
  | RecursionError.

Inductive outcome (A : Type) : Type :=
  | Returns (a : A)
  | Raises (e : exception).
Arguments Returns {A} a.
Arguments Raises {A} e.

(** The callables stored in [self.other_methods]: the four bound methods
    installed by [__init__] and the lambdas created by [define_words], each of
    which captured the text of its definition. *)
Inductive method : Set :=
  | Bound_drop
  | Bound_swap
  | Bound_dup
  | Bound_over
  | Lambda (definition : string).

Record Stack : Type := { items : list Z }.

Record Calculator : Type :=
  { stack : Stack;
    other_methods : gmap string method }.

Definition M (A : Type) : Type := Calculator → outcome A * Calculator.

#[global] Instance M_ret : MRet M := λ A a self, (Returns a, self).

#[global] Instance M_bind : MBind M := λ A B k m self,
  match m self with
  | (Returns a, self') => k a self'
  | (Raises e, self') => (Raises e, self')
  end.

Definition raise {A : Type} (e : exception) : M A := λ self, (Raises e, self).

Definition get_items : M (list Z) := λ self, (Returns (items (stack self)), self).

(** The instance after [self.stack.items] has become [l]. *)
Definition with_items (l : list Z) (self : Calculator) : Calculator :=
  {| stack := {| items := l |}; other_methods := other_methods self |}.

(** The instance after [self.other_methods[word_name] = m]. *)
Definition with_method (word_name : string) (m : method) (self : Calculator) : Calculator :=
  {| stack := stack self;
     other_methods := <[word_name := m]> (other_methods self) |}.

Definition set_items (l : list Z) : M unit := λ self, (Returns tt, with_items l self).

Definition get_other_methods : M (gmap string method) := λ self,
  (Returns (other_methods self), self).

Definition set_other_method (word_name : string) (m : method) : M unit := λ self,
  (Returns tt, with_method word_name m self).

(** ** class Stack *)

Definition is_empty : M bool :=
  l ← get_items; mret (Nat.eqb (length l) 0).

Definition push (item : Z) : M unit :=
  l ← get_items; set_items (l ++ [item]).

Definition pop : M Z :=
  no_items ← is_empty;
  if negb no_items then
    l ← get_items;
    match last l with
    | Some item => _ ← set_items (removelast l); mret item
    | None => raise IndexError
    end
  else raise StackUnderflowError.

(** [get_last_item] returns Python's [None] on an empty stack. *)
Definition get_last_item : M (option Z) :=
  no_items ← is_empty;
  if negb no_items then l ← get_items; mret (last l) else mret None.

(** ** class Calculator *)

Definition add (operand1 operand2 : Z) : Z := operand1 + operand2.
Definition subtract (operand1 operand2 : Z) : Z := operand1 - operand2.
Definition multiply (operand1 operand2 : Z) : Z := operand1 * operand2.

(** Python's [//] on integers, which is [Z.div] for a non-zero divisor; the
    only call site has excluded a zero divisor. *)
Definition divide (operand1 operand2 : Z) : Z := operand1 `div` operand2.

(** [self.operations], which is never written after [__init__]. *)
Definition operations (word : string) : option (Z → Z → Z) :=
  if String.eqb word "+" then Some add
  else if String.eqb word "-" then Some subtract
  else if String.eqb word "*" then Some multiply
  else if String.eqb word "/" then Some divide
  else None.

(** [Calculator()] *)
Definition Calculator_init : Calculator :=
  {| stack := {| items := [] |};
     other_methods :=
       <["over" := Bound_over]>
         (<["dup" := Bound_dup]>
            (<["swap" := Bound_swap]>
               (<["drop" := Bound_drop]> ∅))) |}.

Definition perform_operation (operation : string) : M unit :=
  l ← get_items;
  if (length l <? 2)%nat then raise StackUnderflowError
  else
    operand2 ← pop;
    operand1 ← pop;
    if String.eqb operation "/" && (operand2 =? 0) then raise ZeroDivisionError
    else
      match operations operation with
      | Some f => push (f operand1 operand2)
      | None => raise KeyError
      end.

Definition drop : M unit := _ ← pop; mret tt.

Definition swap : M unit :=
  l ← get_items;
  if (length l <? 2)%nat then raise StackUnderflowError
  else
    last_item ← pop;
    new_last_item ← pop;
    _ ← push last_item;
    push new_last_item.

(** The stack is not empty when [get_last_item] is called, so the [None]
    branch is never taken. *)
Definition dup : M unit :=
  no_items ← is_empty;
  if (no_items : bool) then raise StackUnderflowError
  else
    top ← get_last_item;
    match top with
    | Some item => push item
    | None => mret tt
    end.

(** [self.stack.items[-2]] *)
Definition over : M unit :=
  l ← get_items;
  if (length l <? 2)%nat then raise StackUnderflowError
  else
    match last (removelast l) with
    | Some new_last_item => push new_last_item
    | None => raise IndexError
    end.

Definition define_word (item : string) : M unit :=
  let item := PyStr.strip item in
  if PyStr.startswith ":" item then
    match PyStr.split_on ":" item !! 1%nat with
    | None => raise IndexError
    | Some piece =>
        let word_definition := PyStr.strip piece in
        match PyStr.split_space_once word_definition with
        | [word_name; definition] => set_other_method word_name (Lambda definition)
        | _ => raise (ValueError Not_enough_values_to_unpack)
        end
    end
  else mret tt.

Fixpoint define_words (input_data : list string) : M unit :=
  match input_data with
  | [] => mret tt
  | item :: rest => _ ← define_word item; define_words rest
  end.

Section Dispatch.

(** [self.evaluate], as the lambdas of [define_words] reach it. *)
Variable evaluate : string → M (list Z).

Definition call (m : method) : M unit :=
  match m with
  | Bound_drop => drop
  | Bound_swap => swap
  | Bound_dup => dup
  | Bound_over => over
  | Lambda definition => _ ← evaluate definition; mret tt
  end.

(** The body of the loop of [select_operations]. *)
Definition select_operation (word : string) : M unit :=
  if PyStr.isdigit word then
    match PyStr.int word with
    | Some n => push n
    | None => raise (ValueError Invalid_literal_for_int)
    end
  else if bool_decide (is_Some (operations word)) then perform_operation word
  else
    table ← get_other_methods;
    match table !! PyStr.lower word with
    | Some m => call m
    | None => raise (ValueError Undefined_operation)
    end.

Fixpoint for_words (words : list string) : M unit :=
  match words with
  | [] => mret tt
  | word :: rest => _ ← select_operation word; for_words rest
  end.

Definition select_operations (input_data : list string) : M unit :=
  match last input_data with
  | Some segment => for_words (PyStr.split segment)
  | None => raise IndexError
  end.

End Dispatch.

(** [evaluate], with the depth of the Python call stack made explicit: a
    lambda calls [evaluate] again, and when no frame is left the interpreter
    raises [RecursionError]. *)
Fixpoint evaluate (depth : nat) (input_data : string) : M (list Z) :=
  match depth with
  | O => raise RecursionError
  | S depth' =>
      let input_data :=
        if PyStr.contains ":" input_data
        then PyStr.split_on ";" (PyStr.lower input_data)
        else PyStr.split_on ";" (PyStr.lower input_data) in
      _ ← define_words input_data;
      _ ← select_operations (evaluate depth') input_data;
      get_items
  end.

Definition result_of {A : Type} (r : outcome A * Calculator) : outcome A := r.1.
Definition self_after {A : Type} (r : outcome A * Calculator) : Calculator := r.2.


(** [input_data.lower().split(";")], which both branches of the test in
    [evaluate] compute. *)
Definition segments (input_data : string) : list string :=
  PyStr.split_on ";" (PyStr.lower input_data).

(** What [evaluate] still does once the loop of [select_operations] has
    consumed a word: the remaining words, then [return self.stack.items]. *)
Definition rest_of_evaluate (depth : nat) (after : list string) : M (list Z) :=
  _ ← for_words (evaluate depth) after; get_items.

(** Execution of [input_data] on [self] reaches the word [word] of the last
    segment in state [self']: the definition pass returned, and the words
    [before] it were executed without an exception. *)
Definition reaches (depth : nat) (input_data : string) (self : Calculator)
    (before : list string) (word : string) (after : list string)
    (self' : Calculator) : Prop :=
  ∃ self1 segment,
    define_words (segments input_data) self = (Returns tt, self1) ∧
    last (segments input_data) = Some segment ∧
    PyStr.split segment = before ++ word :: after ∧
    for_words (evaluate depth) before self1 = (Returns tt, self').

(** The call [evaluate(input_data)] on [self] gets to dispatch [word] in
    state [self']: either as a word of its own last segment, or inside the
    definition of a user word that it has reached and called. *)
Inductive dispatches : nat → string → Calculator → string → Calculator → Prop :=
  | dispatches_here depth input_data self before word after self' :
      reaches depth input_data self before word after self' →
      dispatches (S depth) input_data self word self'
  | dispatches_inside depth input_data self before name after self1
        definition word self' :
      reaches depth input_data self before name after self1 →
      PyStr.isdigit name = false →
      operations name = None →
      other_methods self1 !! PyStr.lower name = Some (Lambda definition) →
      dispatches depth definition self1 word self' →
      dispatches (S depth) input_data self word self'.

(** The outcome is the interpreter running out of call stack. *)
Definition overflowed {A : Type} (r : outcome A) : bool :=
  match r with
  | Raises RecursionError => true
  | _ => false
  end.

(** A word name as a definition can carry it: not empty, no whitespace and
    no colon. *)
Definition is_word_name (word_name : string) : bool :=
  negb (String.eqb word_name "")
  && PyStr.all_chars
       (λ ch, negb (PyStr.isspace_char ch) && negb (Ascii.eqb ch ":")) word_name.

(** The text of a definition as [define_words] captures it: not empty, no
    colon, no trailing whitespace. *)
Definition is_definition_text (definition : string) : bool :=
  negb (String.eqb definition "")
  && PyStr.all_chars (λ ch, negb (Ascii.eqb ch ":")) definition
  && String.eqb (PyStr.rstrip definition) definition.

(** The text [: word_name definition]. *)
Definition definition_segment (word_name definition : string) : string :=
  String ":" (String " " (word_name +:+ String " " definition)).

(** Running [m] never unbinds a word of [self.other_methods], whether it
    returns or raises. *)
Definition keeps_words {A : Type} (m : M A) : Prop :=
  ∀ self word,
    is_Some (other_methods self !! word) →
    is_Some (other_methods (self_after (m self)) !! word).

(** The instance after a series of further [evaluate] calls, each with its
    own input and call-stack allowance, whatever each returns or raises. *)
Fixpoint later_calls (calls : list (nat * string)) (self : Calculator) : Calculator :=
  match calls with
  | [] => self
  | (depth, input_data) :: rest =>
      later_calls rest (self_after (evaluate depth input_data self))
  end.

(** A caller pushing the items of [xs] one after the other. *)
Fixpoint push_all (xs : list Z) : M unit :=
  match xs with
  | [] => mret tt
  | x :: rest => _ ← push x; push_all rest
  end.

(** A caller popping [n] times, collecting the items in the order they
    come off the stack. *)
Fixpoint pop_n (n : nat) : M (list Z) :=
  match n with
  | O => mret []
  | S k => x ← pop; rest ← pop_n k; mret (x :: rest)
  end.

(** The exceptions of Python's own list and dict accesses, which the code
    never raises by itself. *)
Definition internal_error (e : exception) : bool :=
  match e with
  | IndexError | KeyError => true
  | _ => false
  end.

(** Whatever [m] raises, it is not an [IndexError] or a [KeyError]. *)
Definition never_internal {A : Type} (m : M A) : Prop :=
  ∀ self e, result_of (m self) = Raises e → internal_error e = false.


(** No text stored in the word table holds a colon. *)
Definition colon_free (table : gmap string method) : Prop :=
  ∀ word definition,
    table !! word = Some (Lambda definition) → PyStr.contains ":" definition = false.

(** On an instance whose stored texts hold no colon, [m] leaves the word
    table as it is, whether it returns or raises. *)
Definition table_stable {A : Type} (m : M A) : Prop :=
  ∀ self,
    colon_free (other_methods self) →
    other_methods (self_after (m self)) = other_methods self.

(** The instance [self] with the items of [l] lying below its stack. *)
Definition below (l : list Z) (self : Calculator) : Calculator :=
  with_items (l ++ items (stack self)) self.

(** Where [m] returns, it returns the same value, and leaves the same
    instance, with any items [l] lying untouched below the stack. *)
Definition framed {A : Type} (m : M A) : Prop :=
  ∀ l self a self',
    m self = (Returns a, self') → m (below l self) = (Returns a, below l self').

(** The same for a call that returns the stack itself. *)
Definition framed_stack (m : M (list Z)) : Prop :=
  ∀ l self r self',
    m self = (Returns r, self') → m (below l self) = (Returns (l ++ r), below l self').

(** * Lemmas *)

(** ** The monad *)

Lemma bind_Returns {A B : Type} (m : M A) (k : A → M B) self a self' :
  m self = (Returns a, self') → (m ≫= k) self = k a self'.
Proof. intros Hm. unfold mbind, M_bind. now rewrite Hm. Qed.

Lemma bind_Raises {A B : Type} (m : M A) (k : A → M B) self e self' :
  m self = (Raises e, self') → (m ≫= k) self = (Raises e, self').
Proof. intros Hm. unfold mbind, M_bind. now rewrite Hm. Qed.

Lemma evaluate_S depth input_data self :
  evaluate (S depth) input_data self
  = (_ ← define_words (segments input_data);
     _ ← select_operations (evaluate depth) (segments input_data);
     get_items) self.
Proof. cbn [evaluate]. now destruct (PyStr.contains ":" input_data). Qed.

(** ** The stack *)

Lemma list_snoc2_cases (l : list Z) :
  l = [] ∨ (∃ x, l = [x]) ∨ (∃ l' a b, l = l' ++ [a; b]).
Proof.
  destruct l as [|b l] using rev_ind; [now left|].
  destruct l as [|a l _] using rev_ind; [right; left; now exists b|].
  right; right. exists l, a, b. now rewrite <- app_assoc.
Qed.

Lemma list_snoc_cases (l : list Z) : l = [] ∨ ∃ l' x, l = l' ++ [x].
Proof. destruct l as [|x l _] using rev_ind; [now left|right; eauto]. Qed.

Lemma length_snoc2 (l : list Z) a b : length (l ++ [a; b]) = S (S (length l)).
Proof. rewrite length_app. simpl. lia. Qed.

Lemma push_eq item self :
  push item self = (Returns tt, with_items (items (stack self) ++ [item]) self).
Proof. reflexivity. Qed.

Lemma pop_nil self :
  items (stack self) = [] → pop self = (Raises StackUnderflowError, self).
Proof.
  intros H. unfold pop, is_empty, get_items, mbind, M_bind, mret, M_ret.
  now rewrite H.
Qed.

Lemma pop_snoc self l x :
  items (stack self) = l ++ [x] → pop self = (Returns x, with_items l self).
Proof.
  intros H. unfold pop, is_empty, get_items, set_items, mbind, M_bind, mret, M_ret.
  rewrite H, length_app, Nat.add_1_r. cbn beta iota delta [negb Nat.eqb].
  now rewrite H, last_snoc, removelast_last.
Qed.

Ltac read_items H :=
  match type of H with
  | items (stack ?self) = ?l =>
      rewrite (bind_Returns get_items _ self l self)
        by (unfold get_items; now rewrite H)
  end.

Ltac pop_item self l x :=
  rewrite (bind_Returns pop _ _ x (with_items l self))
    by (lazymatch goal with |- pop ?s = _ => refine (pop_snoc s l x _) end;
        cbn [with_items stack items];
        first [reflexivity | now rewrite <- app_assoc | (etransitivity; [eassumption|]; now rewrite <- app_assoc)]).

(** *** Arithmetic words *)

Lemma perform_operation_underflow operation self :
  (length (items (stack self)) < 2)%nat →
  perform_operation operation self = (Raises StackUnderflowError, self).
Proof.
  intros H. unfold perform_operation.
  rewrite (bind_Returns get_items _ self _ self eq_refl).
  apply Nat.ltb_lt in H. now rewrite H.
Qed.

Lemma perform_operation_snoc2 operation f self l a b :
  items (stack self) = l ++ [a; b] →
  operations operation = Some f →
  String.eqb operation "/" && (b =? 0) = false →
  perform_operation operation self = (Returns tt, with_items (l ++ [f a b]) self).
Proof.
  intros H Hop Hz. unfold perform_operation.
  read_items H. rewrite length_snoc2. cbn [Nat.ltb Nat.leb].
  pop_item self (l ++ [a]) b. pop_item self l a.
  now rewrite Hz, Hop.
Qed.

Lemma perform_operation_zero self l a :
  items (stack self) = l ++ [a; 0] →
  perform_operation "/" self = (Raises ZeroDivisionError, with_items l self).
Proof.
  intros H. unfold perform_operation.
  read_items H. rewrite length_snoc2. cbn [Nat.ltb Nat.leb].
  pop_item self (l ++ [a]) 0. pop_item self l a.
  reflexivity.
Qed.

(** *** Stack words *)

Lemma drop_nil self :
  items (stack self) = [] → drop self = (Raises StackUnderflowError, self).
Proof. intros H. unfold drop. now rewrite (bind_Raises _ _ _ _ _ (pop_nil self H)). Qed.

Lemma drop_snoc self l x :
  items (stack self) = l ++ [x] → drop self = (Returns tt, with_items l self).
Proof. intros H. unfold drop. now rewrite (bind_Returns _ _ _ _ _ (pop_snoc self l x H)). Qed.

Lemma dup_nil self :
  items (stack self) = [] → dup self = (Raises StackUnderflowError, self).
Proof.
  intros H. unfold dup, is_empty, get_items, mbind, M_bind, mret, M_ret.
  now rewrite H.
Qed.

Lemma is_empty_snoc self l x :
  items (stack self) = l ++ [x] → is_empty self = (Returns false, self).
Proof.
  intros H. unfold is_empty. read_items H.
  now rewrite length_app, Nat.add_1_r.
Qed.

Lemma get_last_item_snoc self l x :
  items (stack self) = l ++ [x] → get_last_item self = (Returns (Some x), self).
Proof.
  intros H. unfold get_last_item.
  rewrite (bind_Returns _ _ _ _ _ (is_empty_snoc self l x H)). cbn [negb].
  read_items H. now rewrite last_snoc.
Qed.

Lemma dup_snoc self l x :
  items (stack self) = l ++ [x] → dup self = (Returns tt, with_items (l ++ [x; x]) self).
Proof.
  intros H. unfold dup.
  rewrite (bind_Returns _ _ _ _ _ (is_empty_snoc self l x H)).
  rewrite (bind_Returns _ _ _ _ _ (get_last_item_snoc self l x H)).
  rewrite push_eq, H. now rewrite <- app_assoc.
Qed.

Lemma swap_underflow self :
  (length (items (stack self)) < 2)%nat → swap self = (Raises StackUnderflowError, self).
Proof.
  intros H. unfold swap.
  rewrite (bind_Returns get_items _ self _ self eq_refl).
  apply Nat.ltb_lt in H. now rewrite H.
Qed.

Lemma swap_snoc2 self l a b :
  items (stack self) = l ++ [a; b] →
  swap self = (Returns tt, with_items (l ++ [b; a]) self).
Proof.
  intros H. unfold swap.
  read_items H. rewrite length_snoc2. cbn [Nat.ltb Nat.leb].
  pop_item self (l ++ [a]) b. pop_item self l a.
  rewrite (bind_Returns (push b) _ _ tt _ (push_eq _ _)), push_eq.
  cbn [with_items stack items other_methods]. now rewrite <- app_assoc.
Qed.

Lemma over_underflow self :
  (length (items (stack self)) < 2)%nat → over self = (Raises StackUnderflowError, self).
Proof.
  intros H. unfold over.
  rewrite (bind_Returns get_items _ self _ self eq_refl).
  apply Nat.ltb_lt in H. now rewrite H.
Qed.

Lemma over_snoc2 self l a b :
  items (stack self) = l ++ [a; b] →
  over self = (Returns tt, with_items (l ++ [a; b; a]) self).
Proof.
  intros H. unfold over.
  read_items H. rewrite length_snoc2. cbn [Nat.ltb Nat.leb].
  replace (l ++ [a; b]) with ((l ++ [a]) ++ [b]) by now rewrite <- app_assoc.
  rewrite removelast_last, last_snoc, push_eq, H.
  now rewrite <- app_assoc.
Qed.

(** ** Segments and words *)

Lemma split_on_not_nil sep s : PyStr.split_on sep s ≠ [].
Proof.
  destruct s as [|ch s]; [discriminate|]. simpl.
  destruct (Ascii.eqb ch sep); [discriminate|].
  destruct (PyStr.split_on sep s); discriminate.
Qed.

Lemma segments_last input_data : is_Some (last (segments input_data)).
Proof. apply last_is_Some, split_on_not_nil. Qed.

(** ** Dispatch of one word *)

Lemma operations_cases word f :
  operations word = Some f →
  (word = "+" ∧ f = add) ∨ (word = "-" ∧ f = subtract) ∨
  (word = "*" ∧ f = multiply) ∨ (word = "/" ∧ f = divide).
Proof.
  unfold operations. intros H.
  destruct (String.eqb_spec word "+"); [left; split; congruence|].
  destruct (String.eqb_spec word "-"); [right; left; split; congruence|].
  destruct (String.eqb_spec word "*"); [right; right; left; split; congruence|].
  destruct (String.eqb_spec word "/"); [right; right; right; split; congruence|].
  discriminate.
Qed.

Lemma operator_not_digit word : is_Some (operations word) → PyStr.isdigit word = false.
Proof.
  intros [f Hf].
  destruct (operations_cases word f Hf) as [[-> _]|[[-> _]|[[-> _]|[-> _]]]];
    reflexivity.
Qed.

Section Dispatch_facts.

Variable ev : string → M (list Z).

Lemma select_operation_operator word self :
  is_Some (operations word) →
  select_operation ev word self = perform_operation word self.
Proof.
  intros H. unfold select_operation.
  rewrite (operator_not_digit word H).
  now rewrite (bool_decide_eq_true_2 _ H).
Qed.

Lemma select_operation_lookup word self :
  PyStr.isdigit word = false →
  operations word = None →
  select_operation ev word self =
    match other_methods self !! PyStr.lower word with
    | Some m => call ev m self
    | None => (Raises (ValueError Undefined_operation), self)
    end.
Proof.
  intros Hd Hop. unfold select_operation. rewrite Hd.
  rewrite bool_decide_eq_false_2 by (rewrite Hop; apply is_Some_None).
  rewrite (bind_Returns get_other_methods _ self _ self eq_refl).
  now destruct (other_methods self !! PyStr.lower word).
Qed.

Lemma for_words_app before after self :
  for_words ev (before ++ after) self
  = (_ ← for_words ev before; for_words ev after) self.
Proof.
  revert self. induction before as [|word before IH]; intros self; [reflexivity|].
  cbn [app for_words]. unfold mbind, M_bind in *.
  destruct (select_operation ev word self) as [[[]|e] self']; [apply IH|reflexivity].
Qed.

Lemma for_words_reach before word after self self' :
  for_words ev before self = (Returns tt, self') →
  for_words ev (before ++ word :: after) self
  = (_ ← select_operation ev word; for_words ev after) self'.
Proof.
  intros H. rewrite for_words_app.
  now rewrite (bind_Returns _ _ _ _ _ H).
Qed.

End Dispatch_facts.

Lemma evaluate_reaches depth input_data self before word after self' :
  reaches depth input_data self before word after self' →
  evaluate (S depth) input_data self
  = (_ ← select_operation (evaluate depth) word; rest_of_evaluate depth after) self'.
Proof.
  intros (self1 & segment & Hdef & Hlast & Hsplit & Hbefore).
  rewrite evaluate_S.
  rewrite (bind_Returns _ _ _ _ _ Hdef).
  unfold select_operations. rewrite Hlast, Hsplit.
  unfold mbind at 1, M_bind at 1.
  rewrite (for_words_reach _ _ _ _ _ _ Hbefore).
  unfold rest_of_evaluate, mbind, M_bind.
  destruct (select_operation (evaluate depth) word self') as [[[]|e] self2]; [|reflexivity].
  now destruct (for_words (evaluate depth) after self2) as [[[]|e] self3].
Qed.

Lemma evaluate_reaches_user_word
    depth input_data self before word after self' definition :
  reaches depth input_data self before word after self' →
  PyStr.isdigit word = false →
  operations word = None →
  other_methods self' !! PyStr.lower word = Some (Lambda definition) →
  evaluate (S depth) input_data self
  = (_ ← evaluate depth definition; rest_of_evaluate depth after) self'.
Proof.
  intros Hreach Hd Hop Hw.
  rewrite (evaluate_reaches _ _ _ _ _ _ _ Hreach).
  unfold mbind at 1, M_bind at 1.
  rewrite select_operation_lookup, Hw by assumption.
  cbn [call]. unfold mbind, M_bind.
  now destruct (evaluate depth definition self') as [[?|?] ?].
Qed.

(** An exception raised by a dispatched word ends every enclosing call. *)
Lemma dispatches_raises depth input_data self word self' e self2 :
  dispatches depth input_data self word self' →
  (∀ ev, select_operation ev word self' = (Raises e, self2)) →
  evaluate depth input_data self = (Raises e, self2).
Proof.
  intros Hdisp Hraise.
  induction Hdisp as [depth input_data self before word after self' Hreach
                     |depth input_data self before name after self1 definition
                        word self' Hreach Hd Hop Hw Hdisp IH].
  - rewrite (evaluate_reaches _ _ _ _ _ _ _ Hreach).
    now rewrite (bind_Raises _ _ _ _ _ (Hraise _)).
  - rewrite (evaluate_reaches_user_word _ _ _ _ _ _ _ _ Hreach Hd Hop Hw).
    now rewrite (bind_Raises _ _ _ _ _ (IH Hraise)).
Qed.

(** ** The definition pass *)

Lemma all_chars_app p s t :
  PyStr.all_chars p (s +:+ t) = PyStr.all_chars p s && PyStr.all_chars p t.
Proof.
  induction s as [|ch s IH]; [reflexivity|].
  simpl. rewrite IH. apply andb_assoc.
Qed.

Lemma all_chars_impl (p q : ascii → bool) s :
  (∀ ch, p ch = true → q ch = true) →
  PyStr.all_chars p s = true → PyStr.all_chars q s = true.
Proof.
  intros Hpq. induction s as [|ch s IH]; [reflexivity|].
  cbn [PyStr.all_chars]. rewrite !andb_true_iff. intros [? ?]. auto.
Qed.

Lemma split_on_no_sep sep s :
  PyStr.all_chars (λ ch, negb (Ascii.eqb ch sep)) s = true →
  PyStr.split_on sep s = [s].
Proof.
  induction s as [|ch s IH]; [reflexivity|].
  cbn [PyStr.all_chars PyStr.split_on]. rewrite andb_true_iff, negb_true_iff.
  intros [-> Hs]. now rewrite (IH Hs).
Qed.

Lemma split_space_once_name word_name rest :
  PyStr.all_chars (λ ch, negb (Ascii.eqb ch " ")) word_name = true →
  PyStr.split_space_once (word_name +:+ String " " rest) = [word_name; rest].
Proof.
  induction word_name as [|ch s IH]; [reflexivity|].
  change (String ch s +:+ String " " rest) with (String ch (s +:+ String " " rest)).
  cbn [PyStr.all_chars PyStr.split_space_once].
  rewrite andb_true_iff, negb_true_iff. intros [-> Hs]. now rewrite (IH Hs).
Qed.

Lemma append_not_empty s t : t ≠ "" → s +:+ t ≠ "".
Proof. now destruct s. Qed.

Lemma rstrip_app s t :
  t ≠ "" → PyStr.rstrip t = t → PyStr.rstrip (s +:+ t) = s +:+ t.
Proof.
  intros Ht Hfix. induction s as [|ch s IH]; [exact Hfix|].
  change (String ch s +:+ t) with (String ch (s +:+ t)).
  cbn [PyStr.rstrip]. rewrite IH.
  pose proof (append_not_empty s t Ht). now destruct (s +:+ t).
Qed.

Lemma rstrip_space_then t :
  t ≠ "" → PyStr.rstrip t = t → PyStr.rstrip (String " " t) = String " " t.
Proof. intros Ht Hfix. exact (rstrip_app (String " " "") t Ht Hfix). Qed.

Lemma name_chars word_name :
  is_word_name word_name = true →
  ∃ ch s, word_name = String ch s ∧ PyStr.isspace_char ch = false ∧
    PyStr.all_chars (λ ch, negb (Ascii.eqb ch " ")) word_name = true ∧
    PyStr.all_chars (λ ch, negb (Ascii.eqb ch ":")) word_name = true.
Proof.
  unfold is_word_name. rewrite andb_true_iff. intros [Hne Hall].
  destruct word_name as [|ch s]; [discriminate|]. exists ch, s.
  split; [reflexivity|]. split.
  - cbn [PyStr.all_chars] in Hall. rewrite !andb_true_iff, negb_true_iff in Hall. tauto.
  - split; revert Hall; apply all_chars_impl; intros c;
      rewrite andb_true_iff, !negb_true_iff; intros [Hs Hc]; [|exact Hc].
    destruct (Ascii.eqb_spec c " "); [subst c; discriminate|reflexivity].
Qed.

Lemma definition_chars definition :
  is_definition_text definition = true →
  definition ≠ "" ∧ PyStr.rstrip definition = definition ∧
  PyStr.all_chars (λ ch, negb (Ascii.eqb ch ":")) definition = true.
Proof.
  unfold is_definition_text. rewrite !andb_true_iff, negb_true_iff.
  intros [[Hne Hall] Hfix]. apply String.eqb_eq in Hfix. apply String.eqb_neq in Hne.
  tauto.
Qed.

Lemma define_word_ignores item self :
  PyStr.startswith ":" (PyStr.strip item) = false →
  define_word item self = (Returns tt, self).
Proof. intros H. unfold define_word. now rewrite H. Qed.

Lemma define_word_registers item word_name definition self :
  PyStr.strip item = definition_segment word_name definition →
  is_word_name word_name = true →
  is_definition_text definition = true →
  define_word item self = (Returns tt, with_method word_name (Lambda definition) self).
Proof.
  intros Hitem Hname Hdef.
  destruct (name_chars _ Hname) as (ch & s & Hs & Hch & Hsp & Hcol).
  destruct (definition_chars _ Hdef) as (Hne & Hfix & Hdcol).
  unfold define_word. rewrite Hitem. unfold definition_segment.
  cbn [PyStr.startswith PyStr.split_on Ascii.eqb Bool.eqb].
  rewrite split_on_no_sep.
  2:{ change (String " " (word_name +:+ String " " definition))
        with (String " " word_name +:+ String " " definition).
      rewrite all_chars_app.
      change (PyStr.all_chars ?p (String " " ?t)) with (PyStr.all_chars p t).
      now rewrite Hcol, Hdcol. }
  cbn [lookup list_lookup].
  assert (PyStr.strip (String " " (word_name +:+ String " " definition))
          = word_name +:+ String " " definition) as ->.
  { unfold PyStr.strip. cbn [PyStr.lstrip].
    replace (PyStr.isspace_char " ") with true by reflexivity.
    rewrite Hs.
    change (String ch s +:+ String " " definition)
      with (String ch (s +:+ String " " definition)).
    cbn [PyStr.lstrip]. rewrite Hch.
    change (String ch (s +:+ String " " definition))
      with ((String ch s) +:+ String " " definition).
    apply rstrip_app; [discriminate|]. now apply rstrip_space_then. }
  now rewrite (split_space_once_name _ _ Hsp).
Qed.

Lemma define_words_app earlier later self :
  define_words (earlier ++ later) self
  = (_ ← define_words earlier; define_words later) self.
Proof.
  revert self. induction earlier as [|item earlier IH]; intros self; [reflexivity|].
  cbn [app define_words]. unfold mbind, M_bind in *.
  destruct (define_word item self) as [[[]|e] self']; [apply IH|reflexivity].
Qed.

Lemma define_word_stack item self : stack (define_word item self).2 = stack self.
Proof.
  unfold define_word.
  destruct (PyStr.startswith ":" (PyStr.strip item)); [|reflexivity].
  destruct (PyStr.split_on ":" (PyStr.strip item) !! 1%nat); [|reflexivity].
  destruct (PyStr.split_space_once (PyStr.strip s)) as [|? [|? [|? ?]]]; reflexivity.
Qed.

Lemma define_words_stack input_data self :
  stack (define_words input_data self).2 = stack self.
Proof.
  revert self. induction input_data as [|item rest IH]; intros self; [reflexivity|].
  cbn [define_words]. unfold mbind, M_bind.
  pose proof (define_word_stack item self) as H.
  destruct (define_word item self) as [[[]|e] self']; cbn [snd] in *; [|exact H].
  now rewrite IH.
Qed.

(** ** Floor division *)

Lemma divide_Qfloor a b :
  b ≠ 0 → divide a b = Qfloor (Qdiv (inject_Z a) (inject_Z b)).
Proof.
  intros Hb. unfold divide, Qdiv, Qmult, Qinv, inject_Z, Qfloor.
  destruct b as [|p|p]; [congruence| |]; cbn [Qnum Qden].
  - now rewrite Z.mul_1_r.
  - replace (a * Z.neg 1) with (- a) by lia.
    now rewrite <- (Z.div_opp_opp a (Z.neg p)) by lia.
Qed.

(** ** The word table only grows *)

Create HintDb keeps discriminated.

Lemma keeps_words_ret {A : Type} (a : A) : keeps_words (mret a).
Proof. now intros self word. Qed.

Lemma keeps_words_raise {A : Type} e : keeps_words (@raise A e).
Proof. now intros self word. Qed.

Lemma keeps_words_bind {A B : Type} (m : M A) (k : A → M B) :
  keeps_words m → (∀ a, keeps_words (k a)) → keeps_words (m ≫= k).
Proof.
  intros Hm Hk self word Hw. specialize (Hm self word Hw).
  unfold mbind, M_bind, self_after in *.
  destruct (m self) as [[a|e] self1]; [now apply Hk|exact Hm].
Qed.

Lemma keeps_words_get_items : keeps_words get_items.
Proof. now intros self word. Qed.

Lemma keeps_words_set_items l : keeps_words (set_items l).
Proof. now intros self word. Qed.

Lemma keeps_words_get_other_methods : keeps_words get_other_methods.
Proof. now intros self word. Qed.

Lemma keeps_words_set_other_method word_name m :
  keeps_words (set_other_method word_name m).
Proof.
  intros self word Hw. cbn. rewrite lookup_insert. now case_decide.
Qed.

#[local] Hint Resolve keeps_words_ret keeps_words_raise keeps_words_get_items
  keeps_words_set_items keeps_words_get_other_methods
  keeps_words_set_other_method : keeps.

Ltac keeps_step :=
  match goal with
  | |- keeps_words (_ ≫= _) => apply keeps_words_bind; [|intros ?]
  | |- keeps_words (if ?b then _ else _) => destruct b
  | |- keeps_words (match ?x with _ => _ end) => destruct x
  | |- keeps_words _ => solve [auto with keeps]
  end.

Lemma keeps_words_is_empty : keeps_words is_empty.
Proof. unfold is_empty. repeat keeps_step. Qed.

Lemma keeps_words_push item : keeps_words (push item).
Proof. unfold push. repeat keeps_step. Qed.

#[local] Hint Resolve keeps_words_is_empty keeps_words_push : keeps.

Lemma keeps_words_pop : keeps_words pop.
Proof. unfold pop. repeat keeps_step. Qed.

Lemma keeps_words_get_last_item : keeps_words get_last_item.
Proof. unfold get_last_item. repeat keeps_step. Qed.

#[local] Hint Resolve keeps_words_pop keeps_words_get_last_item : keeps.

Lemma keeps_words_perform_operation operation :
  keeps_words (perform_operation operation).
Proof. unfold perform_operation. repeat keeps_step. Qed.

Lemma keeps_words_drop : keeps_words drop.
Proof. unfold drop. repeat keeps_step. Qed.

Lemma keeps_words_swap : keeps_words swap.
Proof. unfold swap. repeat keeps_step. Qed.

Lemma keeps_words_dup : keeps_words dup.
Proof. unfold dup. repeat keeps_step. Qed.

Lemma keeps_words_over : keeps_words over.
Proof. unfold over. repeat keeps_step. Qed.

Lemma keeps_words_define_word item : keeps_words (define_word item).
Proof.
  unfold define_word.
  destruct (PyStr.startswith ":" (PyStr.strip item)); [|auto with keeps].
  destruct (PyStr.split_on ":" (PyStr.strip item) !! 1%nat); [|auto with keeps].
  destruct (PyStr.split_space_once (PyStr.strip s)) as [|? [|? [|? ?]]];
    auto with keeps.
Qed.

#[local] Hint Resolve keeps_words_perform_operation keeps_words_drop
  keeps_words_swap keeps_words_dup keeps_words_over
  keeps_words_define_word : keeps.

Lemma keeps_words_define_words input_data : keeps_words (define_words input_data).
Proof.
  induction input_data as [|item rest IH]; cbn [define_words]; repeat keeps_step.
Qed.

Section Keeps_dispatch.

Variable ev : string → M (list Z).
Hypothesis keeps_ev : ∀ input_data, keeps_words (ev input_data).

Lemma keeps_words_call m : keeps_words (call ev m).
Proof. destruct m; cbn [call]; repeat keeps_step. Qed.

Lemma keeps_words_select_operation word : keeps_words (select_operation ev word).
Proof.
  pose proof keeps_words_call. unfold select_operation. repeat keeps_step.
Qed.

Lemma keeps_words_for_words words : keeps_words (for_words ev words).
Proof.
  pose proof keeps_words_select_operation.
  induction words as [|word rest IH]; cbn [for_words]; repeat keeps_step.
Qed.

Lemma keeps_words_select_operations input_data :
  keeps_words (select_operations ev input_data).
Proof.
  pose proof keeps_words_for_words. unfold select_operations. repeat keeps_step.
Qed.

End Keeps_dispatch.

Lemma keeps_words_evaluate depth input_data : keeps_words (evaluate depth input_data).
Proof.
  revert input_data. induction depth as [|depth IH]; intros input_data;
    [apply keeps_words_raise|].
  intros self word Hw. rewrite evaluate_S. revert self word Hw.
  change (keeps_words (_ ← define_words (segments input_data);
                       _ ← select_operations (evaluate depth) (segments input_data);
                       get_items)).
  pose proof keeps_words_define_words. repeat keeps_step.
  now apply keeps_words_select_operations.
Qed.

Lemma later_calls_keep_words calls self word :
  is_Some (other_methods self !! word) →
  is_Some (other_methods (later_calls calls self) !! word).
Proof.
  revert self. induction calls as [|[depth input_data] rest IH]; intros self Hw;
    [exact Hw|].
  cbn [later_calls]. apply IH. now apply keeps_words_evaluate.
Qed.

Lemma evaluate_after_definitions depth input_data self self1 segment :
  define_words (segments input_data) self = (Returns tt, self1) →
  last (segments input_data) = Some segment →
  evaluate (S depth) input_data self
  = (_ ← for_words (evaluate depth) (PyStr.split segment); get_items) self1.
Proof.
  intros Hdef Hlast. rewrite evaluate_S.
  rewrite (bind_Returns _ _ _ _ _ Hdef).
  unfold select_operations. now rewrite Hlast.
Qed.

Lemma evaluate_definitions_raise depth input_data self self1 e :
  define_words (segments input_data) self = (Raises e, self1) →
  evaluate (S depth) input_data self = (Raises e, self1).
Proof.
  intros Hdef. rewrite evaluate_S.
  now rewrite (bind_Raises _ _ _ _ _ Hdef).
Qed.

(** ** A deeper call stack changes nothing once it is deep enough *)

Section More_depth.

Variables ev ev' : string → M (list Z).
Hypothesis ev_ev' : ∀ input_data self r self',
  ev input_data self = (r, self') → overflowed r = false →
  ev' input_data self = (r, self').

Lemma call_more_depth m self r self' :
  call ev m self = (r, self') → overflowed r = false →
  call ev' m self = (r, self').
Proof.
  destruct m as [| | | |definition]; cbn [call]; try (intros H _; exact H).
  unfold mbind, M_bind.
  destruct (ev definition self) as [[x|e] self1] eqn:E; intros [= <- <-] Hr.
  - now rewrite (ev_ev' _ _ _ _ E eq_refl).
  - now rewrite (ev_ev' _ _ _ _ E Hr).
Qed.

Lemma select_operation_more_depth word self r self' :
  select_operation ev word self = (r, self') → overflowed r = false →
  select_operation ev' word self = (r, self').
Proof.
  unfold select_operation.
  destruct (PyStr.isdigit word); [intros H _; exact H|].
  destruct (bool_decide (is_Some (operations word))); [intros H _; exact H|].
  rewrite !(bind_Returns get_other_methods _ self _ self eq_refl).
  destruct (other_methods self !! PyStr.lower word); [|intros H _; exact H].
  apply call_more_depth.
Qed.

Lemma for_words_more_depth words self r self' :
  for_words ev words self = (r, self') → overflowed r = false →
  for_words ev' words self = (r, self').
Proof.
  revert self. induction words as [|word rest IH]; intros self; [intros H _; exact H|].
  cbn [for_words]. unfold mbind, M_bind.
  destruct (select_operation ev word self) as [[[]|e] self1] eqn:E.
  - rewrite (select_operation_more_depth _ _ _ _ E eq_refl). apply IH.
  - intros [= <- <-] Hr. now rewrite (select_operation_more_depth _ _ _ _ E Hr).
Qed.

End More_depth.

Lemma evaluate_more_depth depth input_data self r self' :
  evaluate depth input_data self = (r, self') → overflowed r = false →
  evaluate (S depth) input_data self = (r, self').
Proof.
  revert input_data self r self'.
  induction depth as [|depth IH]; intros input_data self r self';
    [intros [= <- <-]; discriminate|].
  rewrite (evaluate_S (S depth)), (evaluate_S depth).
  unfold mbind at 1 3, M_bind at 1 3.
  destruct (define_words (segments input_data) self) as [[[]|e] self1];
    [|intros H _; exact H].
  unfold select_operations. destruct (last (segments input_data)) as [segment|];
    [|intros H _; exact H].
  unfold mbind, M_bind.
  destruct (for_words (evaluate depth) (PyStr.split segment) self1)
    as [[[]|e] self2] eqn:E.
  - now rewrite (for_words_more_depth _ _ IH _ _ _ _ E eq_refl).
  - intros [= <- <-] Hr. now rewrite (for_words_more_depth _ _ IH _ _ _ _ E Hr).
Qed.

Lemma evaluate_deep_enough depth extra input_data self r self' :
  evaluate depth input_data self = (r, self') → overflowed r = false →
  evaluate (extra + depth) input_data self = (r, self').
Proof.
  intros H Hr. induction extra as [|extra IH]; [exact H|].
  now apply evaluate_more_depth.
Qed.

(** * The claims *)

(** C1. A segment [: name body] registers the user-defined word [name] with
    the text [body]; when the execution pass reaches a word bound to such a
    definition, [evaluate] is run again on the captured text against the very
    instance state the word was reached in (the live stack and word table),
    its return value is dropped, and execution goes on from the state it
    leaves. *)
Theorem user_word_reevaluates_definition :
  (∀ item word_name definition self,
     PyStr.strip item = definition_segment word_name definition →
     is_word_name word_name = true →
     is_definition_text definition = true →
     define_word item self
     = (Returns tt, with_method word_name (Lambda definition) self)) ∧
  (∀ depth input_data self before word after self' definition,
     reaches depth input_data self before word after self' →
     PyStr.isdigit word = false →
     operations word = None →
     other_methods self' !! PyStr.lower word = Some (Lambda definition) →
     evaluate (S depth) input_data self
     = (_ ← evaluate depth definition; rest_of_evaluate depth after) self').
Proof.
  split; [exact define_word_registers|exact evaluate_reaches_user_word].
Qed.

(** [: double 2 * ; 5 double] leaves [10]: [double] multiplies the [5]
    already on the stack. *)
Lemma user_word_double :
  evaluate 2%nat ": double 2 * ; 5 double" Calculator_init
  = (Returns [10], with_items [10] (with_method "double" (Lambda "2 *") Calculator_init)).
Proof.
  rewrite (proj2 user_word_reevaluates_definition 1%nat ": double 2 * ; 5 double"
             Calculator_init ["5"] "double" []
             (with_items [5] (with_method "double" (Lambda "2 *") Calculator_init))
             "2 *").
  - vm_compute. reflexivity.
  - exists (with_method "double" (Lambda "2 *") Calculator_init), " 5 double".
    repeat split; vm_compute; reflexivity.
  - reflexivity.
  - reflexivity.
  - vm_compute. reflexivity.
Defined.

(** C2. When execution reaches a binary arithmetic word with [operand1]
    below [operand2] on top of the stack, both are popped and
    [f operand1 operand2] is pushed, where [f] is [a + b] for [+], [a - b]
    for [-] and [a * b] for [*]; execution goes on from that stack. *)
Theorem binary_word_operand_order
    depth input_data self before word after self' l operand1 operand2 :
  reaches depth input_data self before word after self' →
  items (stack self') = l ++ [operand1; operand2] →
  (word = "+" →
   evaluate (S depth) input_data self
   = rest_of_evaluate depth after (with_items (l ++ [operand1 + operand2]) self')) ∧
  (word = "-" →
   evaluate (S depth) input_data self
   = rest_of_evaluate depth after (with_items (l ++ [operand1 - operand2]) self')) ∧
  (word = "*" →
   evaluate (S depth) input_data self
   = rest_of_evaluate depth after (with_items (l ++ [operand1 * operand2]) self')).
Proof.
  intros Hreach Hitems.
  rewrite (evaluate_reaches _ _ _ _ _ _ _ Hreach).
  repeat split; intros ->.
  - rewrite (bind_Returns _ _ _ tt (with_items (l ++ [operand1 + operand2]) self'));
      [reflexivity|].
    rewrite select_operation_operator by (eexists; reflexivity).
    exact (perform_operation_snoc2 "+" add _ _ _ _ Hitems eq_refl eq_refl).
  - rewrite (bind_Returns _ _ _ tt (with_items (l ++ [operand1 - operand2]) self'));
      [reflexivity|].
    rewrite select_operation_operator by (eexists; reflexivity).
    exact (perform_operation_snoc2 "-" subtract _ _ _ _ Hitems eq_refl eq_refl).
  - rewrite (bind_Returns _ _ _ tt (with_items (l ++ [operand1 * operand2]) self'));
      [reflexivity|].
    rewrite select_operation_operator by (eexists; reflexivity).
    exact (perform_operation_snoc2 "*" multiply _ _ _ _ Hitems eq_refl eq_refl).
Qed.

(** [2 3 -] leaves [-1]. *)
Lemma binary_word_two_three_minus :
  evaluate 1 "2 3 -" Calculator_init = (Returns [-1], with_items [-1] Calculator_init).
Proof.
  assert (reaches 0 "2 3 -" Calculator_init ["2"; "3"] "-" []
            (with_items [2; 3] Calculator_init)) as Hreach
    by (exists Calculator_init, "2 3 -"; repeat split; vm_compute; reflexivity).
  rewrite (proj1 (proj2 (binary_word_operand_order 0 "2 3 -" Calculator_init
                           ["2"; "3"] "-" [] (with_items [2; 3] Calculator_init)
                           [] 2 3 Hreach eq_refl)) eq_refl).
  reflexivity.
Defined.

(** C3 as stated fails: after [: + 2 *] the table binds [+] to the user's
    text, yet the token [+] still adds ([7]); the same text under the name
    [plus] gives [3, 8]. *)
Lemma plus_is_not_shadowed :
  let r := evaluate 2 ": + 2 * ; 3 4 +" Calculator_init in
  other_methods (self_after r) !! "+" = Some (Lambda "2 *")
  ∧ result_of r = Returns [7]
  ∧ result_of (evaluate 2 ": plus 2 * ; 3 4 plus" Calculator_init) = Returns [3; 8].
Proof. cbv zeta. repeat split; vm_compute; reflexivity. Qed.

(** C3, amended. A definition [: name body] overwrites whatever
    [other_methods] bound to [name] and leaves every other binding alone, so
    the built-in stack words can be shadowed: a word that is neither all
    digits nor an arithmetic operator runs the text the table binds it to.
    The arithmetic operators are dispatched on [operations] before the table
    is consulted, so a definition of [+], [-], [*] or [/] never changes what
    the token does. *)
Theorem redefinition_replaces_table_entry_only :
  (∀ item word_name definition self word,
     PyStr.strip item = definition_segment word_name definition →
     is_word_name word_name = true →
     is_definition_text definition = true →
     other_methods (self_after (define_word item self)) !! word
     = if decide (word = word_name) then Some (Lambda definition)
       else other_methods self !! word) ∧
  (∀ ev word definition self,
     PyStr.isdigit word = false →
     operations word = None →
     other_methods self !! PyStr.lower word = Some (Lambda definition) →
     select_operation ev word self = (_ ← ev definition; mret tt) self) ∧
  (∀ ev word self,
     is_Some (operations word) →
     select_operation ev word self = perform_operation word self).
Proof.
  split; [|split].
  - intros item word_name definition self word Hitem Hname Hdef.
    rewrite (define_word_registers _ _ _ _ Hitem Hname Hdef).
    cbn [self_after snd with_method other_methods].
    rewrite lookup_insert. repeat case_decide; congruence.
  - intros ev word definition self Hd Hop Hw.
    now rewrite select_operation_lookup, Hw.
  - intros ev word self. apply select_operation_operator.
Qed.

(** A redefined [dup] runs the user's text; a redefined [+] still adds. *)
Lemma redefinition_of_dup_and_plus :
  result_of (evaluate 2 ": dup 9 ; 1 dup" Calculator_init) = Returns [1; 9]
  ∧ select_operation (evaluate 1) "+"
      (with_items [3; 4] (with_method "+" (Lambda "2 *") Calculator_init))
    = (Returns tt, with_items [7] (with_method "+" (Lambda "2 *") Calculator_init)).
Proof.
  split; [vm_compute; reflexivity|].
  rewrite (proj2 (proj2 redefinition_replaces_table_entry_only))
    by (eexists; reflexivity).
  vm_compute. reflexivity.
Defined.

(** C4 as stated fails: the only (hence last) segment of [: foo 1] is taken
    as a definition, and [foo] is a known word in a later call. *)
Lemma last_segment_is_defined :
  let r := evaluate 1 ": foo 1" Calculator_init in
  segments ": foo 1" = [": foo 1"]
  ∧ other_methods Calculator_init !! "foo" = None
  ∧ other_methods (self_after r) !! "foo" = Some (Lambda "1")
  ∧ result_of r = Raises (ValueError Undefined_operation)
  ∧ result_of (evaluate 2 "foo" (self_after r)) = Returns [1].
Proof. cbv zeta. repeat split; vm_compute; reflexivity. Qed.

(** C4, amended. The definition pass visits every segment, the last one
    included: a segment that begins with [:] after trimming registers its
    word, any other segment is skipped, and the pass never touches the
    stack.  Only the last segment is then executed as the expression, and
    nothing is executed when the definition pass raises. *)
Theorem definition_pass_covers_every_segment :
  (∀ input_data, is_Some (last (segments input_data))) ∧
  (∀ earlier item self,
     define_words (earlier ++ [item]) self
     = (_ ← define_words earlier; define_word item) self) ∧
  (∀ item word_name definition self,
     PyStr.strip item = definition_segment word_name definition →
     is_word_name word_name = true →
     is_definition_text definition = true →
     define_word item self
     = (Returns tt, with_method word_name (Lambda definition) self)) ∧
  (∀ item self,
     PyStr.startswith ":" (PyStr.strip item) = false →
     define_word item self = (Returns tt, self)) ∧
  (∀ input_data self,
     stack (self_after (define_words input_data self)) = stack self) ∧
  (∀ depth input_data self self1 segment,
     define_words (segments input_data) self = (Returns tt, self1) →
     last (segments input_data) = Some segment →
     evaluate (S depth) input_data self
     = (_ ← for_words (evaluate depth) (PyStr.split segment); get_items) self1) ∧
  (∀ depth input_data self self1 e,
     define_words (segments input_data) self = (Raises e, self1) →
     evaluate (S depth) input_data self = (Raises e, self1)).
Proof.
  repeat split.
  - apply segments_last.
  - intros earlier item self. rewrite define_words_app.
    unfold mbind, M_bind. destruct (define_words earlier self) as [[[]|e] self1];
      [|reflexivity].
    cbn [define_words]. unfold mbind, M_bind.
    now destruct (define_word item self1) as [[[]|e] self2].
  - exact define_word_registers.
  - exact define_word_ignores.
  - exact define_words_stack.
  - exact evaluate_after_definitions.
  - exact evaluate_definitions_raise.
Qed.

(** Of [1 2 ; 3 4] only [3 4] is executed. *)
Lemma definition_pass_on_two_segments :
  evaluate 1 "1 2 ; 3 4" Calculator_init = (Returns [3; 4], with_items [3; 4] Calculator_init).
Proof.
  rewrite (proj1 (proj2 (proj2 (proj2 (proj2 (proj2
             definition_pass_covers_every_segment)))))
             0%nat "1 2 ; 3 4" Calculator_init Calculator_init " 3 4");
    vm_compute; reflexivity.
Defined.

(** C5. When execution reaches [/] with [a] below a non-zero [b] on top of
    the stack, both are popped and the floor of the rational [a / b] is
    pushed; execution goes on from that stack. *)
Theorem slash_pushes_floor depth input_data self before after self' l a b :
  reaches depth input_data self before "/" after self' →
  items (stack self') = l ++ [a; b] →
  b ≠ 0 →
  evaluate (S depth) input_data self
  = rest_of_evaluate depth after
      (with_items (l ++ [Qfloor (Qdiv (inject_Z a) (inject_Z b))]) self').
Proof.
  intros Hreach Hitems Hb.
  rewrite (evaluate_reaches _ _ _ _ _ _ _ Hreach).
  rewrite <- (divide_Qfloor a b Hb).
  rewrite (bind_Returns _ _ _ tt (with_items (l ++ [divide a b]) self'));
    [reflexivity|].
  rewrite select_operation_operator by (eexists; reflexivity).
  apply (perform_operation_snoc2 "/" divide _ _ _ _ Hitems eq_refl).
  apply Z.eqb_neq in Hb. now rewrite Hb.
Qed.

(** [7 2 /] leaves [3]. *)
Lemma slash_seven_two :
  evaluate 1 "7 2 /" Calculator_init = (Returns [3], with_items [3] Calculator_init).
Proof.
  rewrite (slash_pushes_floor 0 "7 2 /" Calculator_init ["7"; "2"] []
             (with_items [7; 2] Calculator_init) [] 7 2).
  - reflexivity.
  - exists Calculator_init, "7 2 /". repeat split; vm_compute; reflexivity.
  - reflexivity.
  - discriminate.
Defined.

(** Floor, not truncation: [-7 // 2] is [-4], where truncation gives [-3]. *)
Example slash_rounds_down :
  result_of (evaluate 1 "0 7 - 2 /" Calculator_init) = Returns [-4]
  ∧ (-7) `quot` 2 = -3.
Proof. split; reflexivity. Qed.

(** C6. Whenever an [evaluate] call dispatches [/], in its last segment or
    inside a user word, with at least two items on the stack and zero on
    top, the call fails with [ZeroDivisionError]. *)
Theorem slash_zero_divisor_raises depth input_data self self' l a :
  dispatches depth input_data self "/" self' →
  items (stack self') = l ++ [a; 0] →
  result_of (evaluate depth input_data self) = Raises ZeroDivisionError.
Proof.
  intros Hdisp Hitems.
  rewrite (dispatches_raises _ _ _ _ _ ZeroDivisionError (with_items l self') Hdisp);
    [reflexivity|].
  intros ev. rewrite select_operation_operator by (eexists; reflexivity).
  exact (perform_operation_zero _ _ _ Hitems).
Qed.

(** [5 0 /] raises. *)
Lemma slash_five_zero :
  result_of (evaluate 1 "5 0 /" Calculator_init) = Raises ZeroDivisionError.
Proof.
  apply (slash_zero_divisor_raises 1 "5 0 /" Calculator_init
           (with_items [5; 0] Calculator_init) [] 5); [|reflexivity].
  apply (dispatches_here 0 _ _ ["5"; "0"] "/" []).
  exists Calculator_init, "5 0 /". repeat split; vm_compute; reflexivity.
Defined.

(** The same failure from inside a user word. *)
Example slash_zero_inside_user_word :
  dispatches 2 ": nought 0 / ; 5 nought" Calculator_init "/"
    (with_items [5; 0] (with_method "nought" (Lambda "0 /") Calculator_init))
  ∧ result_of (evaluate 2 ": nought 0 / ; 5 nought" Calculator_init)
    = Raises ZeroDivisionError.
Proof.
  split; [|vm_compute; reflexivity].
  apply (dispatches_inside 1 _ _ ["5"] "nought" []
           (with_items [5] (with_method "nought" (Lambda "0 /") Calculator_init))
           "0 /"); [|reflexivity|reflexivity|vm_compute; reflexivity|].
  - exists (with_method "nought" (Lambda "0 /") Calculator_init), " 5 nought".
    repeat split; vm_compute; reflexivity.
  - apply (dispatches_here 0 _ _ ["0"] "/" []).
    eexists _, "0 /". repeat split; vm_compute; reflexivity.
Qed.

(** C7. [StackUnderflowError] is raised exactly when an operation needs
    more items than the stack holds: [pop] on an empty stack, a binary
    arithmetic word on fewer than two items, [swap] and [over] on fewer than
    two, [drop] and [dup] on fewer than one. *)
Theorem stack_underflow_exactly_when_short self :
  let depth := length (items (stack self)) in
  (result_of (pop self) = Raises StackUnderflowError ↔ (depth < 1)%nat) ∧
  (∀ operation, is_Some (operations operation) →
     result_of (perform_operation operation self) = Raises StackUnderflowError
     ↔ (depth < 2)%nat) ∧
  (result_of (swap self) = Raises StackUnderflowError ↔ (depth < 2)%nat) ∧
  (result_of (over self) = Raises StackUnderflowError ↔ (depth < 2)%nat) ∧
  (result_of (drop self) = Raises StackUnderflowError ↔ (depth < 1)%nat) ∧
  (result_of (dup self) = Raises StackUnderflowError ↔ (depth < 1)%nat).
Proof.
  cbv zeta.
  assert (∀ (l' : list Z) x, (length (l' ++ [x]) < 1)%nat → False) as Hone
    by (intros l' x; rewrite length_app, Nat.add_1_r; lia).
  assert (∀ (l' : list Z) a b, (length (l' ++ [a; b]) < 2)%nat → False) as Htwo
    by (intros l' a b; rewrite length_snoc2; lia).
  repeat split.
  - destruct (list_snoc_cases (items (stack self))) as [E|(l' & x & E)];
      [rewrite E; simpl; lia|].
    rewrite (pop_snoc _ _ _ E). discriminate.
  - destruct (list_snoc_cases (items (stack self))) as [E|(l' & x & E)];
      [now rewrite (pop_nil _ E)|]. rewrite E. intros H. destruct (Hone _ _ H).
  - intros Hraise. destruct (list_snoc2_cases (items (stack self)))
      as [E|[[x E]|(l' & a & b & E)]]; [rewrite E; simpl; lia..|].
    exfalso. destruct H as [f Hf].
    destruct (decide (operation = "/" ∧ b = 0)) as [[-> ->]|Hnz].
    + rewrite (perform_operation_zero _ _ _ E) in Hraise. discriminate.
    + rewrite (perform_operation_snoc2 _ f _ _ _ _ E Hf) in Hraise; [discriminate|].
      apply andb_false_iff.
      destruct (String.eqb_spec operation "/"); [right|now left].
      apply Z.eqb_neq. tauto.
  - intros Hshort. now rewrite perform_operation_underflow.
  - intros Hraise. destruct (list_snoc2_cases (items (stack self)))
      as [E|[[x E]|(l' & a & b & E)]]; [rewrite E; simpl; lia..|].
    rewrite (swap_snoc2 _ _ _ _ E) in Hraise. discriminate.
  - intros Hshort. now rewrite swap_underflow.
  - intros Hraise. destruct (list_snoc2_cases (items (stack self)))
      as [E|[[x E]|(l' & a & b & E)]]; [rewrite E; simpl; lia..|].
    rewrite (over_snoc2 _ _ _ _ E) in Hraise. discriminate.
  - intros Hshort. now rewrite over_underflow.
  - destruct (list_snoc_cases (items (stack self))) as [E|(l' & x & E)];
      [rewrite E; simpl; lia|].
    rewrite (drop_snoc _ _ _ E). discriminate.
  - destruct (list_snoc_cases (items (stack self))) as [E|(l' & x & E)];
      [now rewrite (drop_nil _ E)|]. rewrite E. intros H. destruct (Hone _ _ H).
  - destruct (list_snoc_cases (items (stack self))) as [E|(l' & x & E)];
      [rewrite E; simpl; lia|].
    rewrite (dup_snoc _ _ _ E). discriminate.
  - destruct (list_snoc_cases (items (stack self))) as [E|(l' & x & E)];
      [now rewrite (dup_nil _ E)|]. rewrite E. intros H. destruct (Hone _ _ H).
Qed.

(** C8. Whenever an [evaluate] call dispatches, in its last segment or
    inside a user word, a word that is not all digits, not an arithmetic
    operator and not bound in the word table (neither a built-in stack word
    nor a user-defined word), the call fails with
    [ValueError("Undefined operation")]. *)
Theorem unknown_word_raises depth input_data self word self' :
  dispatches depth input_data self word self' →
  PyStr.isdigit word = false →
  operations word = None →
  other_methods self' !! PyStr.lower word = None →
  evaluate depth input_data self = (Raises (ValueError Undefined_operation), self').
Proof.
  intros Hdisp Hd Hop Hw.
  apply (dispatches_raises _ _ _ _ _ _ _ Hdisp).
  intros ev. now rewrite select_operation_lookup, Hw.
Qed.

(** [1 foo] raises on [foo], with the [1] already pushed. *)
Lemma unknown_word_one_foo :
  evaluate 1 "1 foo" Calculator_init
  = (Raises (ValueError Undefined_operation), with_items [1] Calculator_init).
Proof.
  apply (unknown_word_raises 1 "1 foo" Calculator_init "foo").
  - apply (dispatches_here 0 _ _ ["1"] "foo" []).
    exists Calculator_init, "1 foo". repeat split; vm_compute; reflexivity.
  - reflexivity.
  - reflexivity.
  - vm_compute. reflexivity.
Defined.

(** C9 as stated fails: [foo], defined by one call, is a known word of the
    next call on the same instance, while a fresh instance does not know
    it. *)
Lemma words_persist_between_calls :
  let first := evaluate 2 ": foo 1 ; 2" Calculator_init in
  result_of first = Returns [2]
  ∧ result_of (evaluate 2 "foo" (self_after first)) = Returns [2; 1]
  ∧ result_of (evaluate 2 "foo" Calculator_init)
    = Raises (ValueError Undefined_operation).
Proof. cbv zeta. repeat split; vm_compute; reflexivity. Qed.

(** C9, amended. The word table belongs to the instance and is never
    cleared: every word bound once the definition pass of an [evaluate] call
    is over (defined by this call or before it) is still bound when the call
    ends, by return or by exception, and after any further [evaluate] calls
    on the same instance. *)
Theorem word_table_persists_on_instance depth input_data self calls word :
  is_Some
    (other_methods (self_after (define_words (segments input_data) self)) !! word) →
  is_Some
    (other_methods
       (later_calls calls (self_after (evaluate (S depth) input_data self))) !! word).
Proof.
  intros Hw. apply later_calls_keep_words.
  rewrite evaluate_S.
  unfold self_after in *. unfold mbind at 1, M_bind at 1.
  destruct (define_words (segments input_data) self) as [[[]|e] self1]; [|exact Hw].
  refine (keeps_words_bind _ _ _ _ self1 word Hw).
  - apply keeps_words_select_operations, keeps_words_evaluate.
  - intros _. apply keeps_words_get_items.
Qed.

(** [foo] outlives the call that defined it and two further calls, the
    second of which raises. *)
Lemma word_table_persists_foo :
  is_Some
    (other_methods
       (later_calls [(2%nat, "1 2 +"); (2%nat, "drop foo")]
          (self_after (evaluate 2 ": foo 1 ; 2" Calculator_init))) !! "foo").
Proof.
  apply word_table_persists_on_instance.
  vm_compute. eexists. reflexivity.
Defined.

(** C10. A [/] that fails on a zero divisor has already popped both
    operands: the exception leaves the instance with the stack two items
    shorter than it was when [/] was dispatched, both for
    [perform_operation] itself and for the [evaluate] call that dispatched
    it. *)
Theorem slash_zero_divisor_pops_operands depth input_data self self' l a :
  dispatches depth input_data self "/" self' →
  items (stack self') = l ++ [a; 0] →
  perform_operation "/" self' = (Raises ZeroDivisionError, with_items l self')
  ∧ evaluate depth input_data self = (Raises ZeroDivisionError, with_items l self')
  ∧ (length (items (stack (with_items l self'))) + 2
     = length (items (stack self')))%nat.
Proof.
  intros Hdisp Hitems. split; [|split].
  - exact (perform_operation_zero _ _ _ Hitems).
  - apply (dispatches_raises _ _ _ _ _ _ _ Hdisp).
    intros ev. rewrite select_operation_operator by (eexists; reflexivity).
    exact (perform_operation_zero _ _ _ Hitems).
  - rewrite Hitems, length_snoc2. cbn [with_items stack items]. lia.
Qed.

(** After the failure of [1 5 0 /] only the [1] is left. *)
Lemma slash_zero_leaves_shorter_stack :
  evaluate 1 "1 5 0 /" Calculator_init
  = (Raises ZeroDivisionError, with_items [1] Calculator_init).
Proof.
  apply (slash_zero_divisor_pops_operands 1 "1 5 0 /" Calculator_init
           (with_items [1; 5; 0] Calculator_init) [1] 5); [|reflexivity].
  apply (dispatches_here 0 _ _ ["1"; "5"; "0"] "/" []).
  exists Calculator_init, "1 5 0 /". repeat split; vm_compute; reflexivity.
Defined.

(** ** The examples of the specification, at every call-stack allowance *)

Example evaluate_double_any_depth depth :
  result_of (evaluate (S (S depth)) ": double 2 * ; 5 double" Calculator_init)
  = Returns [10].
Proof. vm_compute. reflexivity. Qed.

Example evaluate_triple_double_any_depth depth :
  result_of
    (evaluate (S (S depth)) ": DOUBLE 2 *; : TRIPLE 3 *; 4 TRIPLE DOUBLE" Calculator_init)
  = Returns [24].
Proof. vm_compute. reflexivity. Qed.

Example evaluate_builtin_words_any_depth depth :
  result_of (evaluate (S depth) "4 4 *" Calculator_init) = Returns [16]
  ∧ result_of (evaluate (S depth) "1 2 swap" Calculator_init) = Returns [2; 1]
  ∧ result_of (evaluate (S depth) "1 2 over" Calculator_init) = Returns [1; 2; 1]
  ∧ result_of (evaluate (S depth) "dup" Calculator_init) = Raises StackUnderflowError.
Proof. repeat split; vm_compute; reflexivity. Qed.

(** A user word may call another one: the inner call finds [double] in the
    table the outer call filled. *)
Example evaluate_nested_words_any_depth depth :
  result_of
    (evaluate (S (S (S depth))) ": double 2 * ; : quad double double ; 3 quad"
       Calculator_init)
  = Returns [12].
Proof. vm_compute. reflexivity. Qed.

(** A word whose text names itself exhausts any call-stack allowance. *)
Example self_reference_exhausts_stack depth :
  result_of (evaluate depth ": foo foo ; foo" Calculator_init) = Raises RecursionError.
Proof.
  destruct depth as [|depth]; [reflexivity|].
  rewrite evaluate_S.
  erewrite bind_Returns by (vm_compute; reflexivity).
  erewrite bind_Raises; [reflexivity|].
  unfold select_operations.
  replace (last (segments ": foo foo ; foo")) with (Some " foo") by reflexivity.
  change (PyStr.split " foo") with ["foo"].
  set (self := with_method "foo" (Lambda "foo") Calculator_init).
  assert (∀ d, evaluate d "foo" self = (Raises RecursionError, self)) as Hloop.
  { induction d as [|d IH]; [reflexivity|].
    rewrite evaluate_S.
    erewrite bind_Returns by (vm_compute; reflexivity).
    erewrite bind_Raises; [reflexivity|].
    unfold select_operations.
    replace (last (segments "foo")) with (Some "foo") by reflexivity.
    change (PyStr.split "foo") with ["foo"].
    cbn [for_words]. erewrite bind_Raises; [reflexivity|].
    rewrite select_operation_lookup by reflexivity.
    replace (other_methods self !! PyStr.lower "foo") with (Some (Lambda "foo"))
      by (vm_compute; reflexivity).
    cbn [call]. now erewrite bind_Raises by apply IH. }
  cbn [for_words]. erewrite bind_Raises; [reflexivity|].
  rewrite select_operation_lookup by reflexivity.
  replace (other_methods self !! PyStr.lower "foo") with (Some (Lambda "foo"))
    by (vm_compute; reflexivity).
  cbn [call]. now erewrite bind_Raises by apply Hloop.
Qed.

(** * Further properties of the code *)

(** ** The stack discipline *)

Lemma with_items_same self : with_items (items (stack self)) self = self.
Proof. now destruct self as [[l] table]. Qed.

Lemma with_items_twice l l' self :
  with_items l (with_items l' self) = with_items l self.
Proof. reflexivity. Qed.

Lemma push_all_eq xs self :
  push_all xs self = (Returns tt, with_items (items (stack self) ++ xs) self).
Proof.
  revert self. induction xs as [|x xs IH]; intros self.
  - cbn [push_all]. now rewrite app_nil_r, with_items_same.
  - cbn [push_all]. rewrite (bind_Returns _ _ _ _ _ (push_eq x self)), IH.
    cbn [with_items stack items other_methods]. now rewrite <- app_assoc.
Qed.

Lemma pop_n_eq xs self l :
  items (stack self) = l ++ xs →
  pop_n (length xs) self = (Returns (rev xs), with_items l self).
Proof.
  revert self. induction xs as [|x xs IH] using rev_ind; intros self Hitems.
  - cbn [length pop_n rev]. rewrite app_nil_r in Hitems.
    now rewrite <- Hitems, with_items_same.
  - rewrite length_app, Nat.add_1_r, rev_unit. cbn [pop_n].
    rewrite (bind_Returns pop _ _ x (with_items (l ++ xs) self))
      by (apply pop_snoc; now rewrite Hitems, app_assoc).
    now rewrite (bind_Returns _ _ _ (rev xs) (with_items l self))
      by exact (IH (with_items (l ++ xs) self) eq_refl).
Qed.

(** X1. Last in, first out: pushing the items of [xs] and then popping as
    many times gives them back in reverse order and leaves the instance as
    it was; on a stack that was empty, one more [pop] raises
    [StackUnderflowError]. *)
Theorem pushes_then_pops_reverse xs self :
  (_ ← push_all xs; pop_n (length xs)) self = (Returns (rev xs), self)
  ∧ (items (stack self) = [] →
     result_of ((_ ← push_all xs; _ ← pop_n (length xs); pop) self)
     = Raises StackUnderflowError).
Proof.
  assert ((_ ← push_all xs; pop_n (length xs)) self = (Returns (rev xs), self)) as H.
  { rewrite (bind_Returns _ _ _ _ _ (push_all_eq xs self)).
    rewrite (pop_n_eq xs (with_items (items (stack self) ++ xs) self)
               (items (stack self)) eq_refl).
    now rewrite with_items_twice, with_items_same. }
  split; [exact H|]. intros Hnil.
  rewrite (bind_Returns _ _ _ _ _ (push_all_eq xs self)).
  rewrite (bind_Returns _ _ _ _ _
             (pop_n_eq xs (with_items (items (stack self) ++ xs) self)
                (items (stack self)) eq_refl)).
  rewrite with_items_twice, with_items_same.
  now rewrite (pop_nil _ Hnil).
Qed.

(** X2. On a stack deep enough, [drop] removes the top item, [swap]
    exchanges the two top items, [dup] pushes a copy of the top item and
    [over] pushes a copy of the item below the top; the items below and the
    word table are left alone. *)
Theorem stack_words_effect :
  (∀ self l x, items (stack self) = l ++ [x] →
     drop self = (Returns tt, with_items l self)) ∧
  (∀ self l a b, items (stack self) = l ++ [a; b] →
     swap self = (Returns tt, with_items (l ++ [b; a]) self)) ∧
  (∀ self l x, items (stack self) = l ++ [x] →
     dup self = (Returns tt, with_items (l ++ [x; x]) self)) ∧
  (∀ self l a b, items (stack self) = l ++ [a; b] →
     over self = (Returns tt, with_items (l ++ [a; b; a]) self)).
Proof.
  repeat split.
  - exact drop_snoc.
  - exact swap_snoc2.
  - exact dup_snoc.
  - exact over_snoc2.
Qed.

(** [1 2 swap] and [1 2 over], as the words act on the stack. *)
Lemma stack_words_on_one_two :
  swap (with_items [1; 2] Calculator_init)
  = (Returns tt, with_items [2; 1] Calculator_init)
  ∧ over (with_items [1; 2] Calculator_init)
    = (Returns tt, with_items [1; 2; 1] Calculator_init).
Proof.
  split.
  - exact (proj1 (proj2 stack_words_effect) (with_items [1; 2] Calculator_init)
             [] 1 2 eq_refl).
  - exact (proj2 (proj2 (proj2 stack_words_effect))
             (with_items [1; 2] Calculator_init) [] 1 2 eq_refl).
Defined.

(** X3. On a stack deep enough the stack words undo each other: [swap]
    twice, [dup] then [drop], and [over] then [drop] each leave the instance
    exactly as it was. *)
Theorem stack_words_cancel self :
  ((2 ≤ length (items (stack self)))%nat →
     (_ ← swap; swap) self = (Returns tt, self)
     ∧ (_ ← over; drop) self = (Returns tt, self)) ∧
  ((1 ≤ length (items (stack self)))%nat →
     (_ ← dup; drop) self = (Returns tt, self)).
Proof.
  split.
  - intros Hlen.
    destruct (list_snoc2_cases (items (stack self)))
      as [E|[[x E]|(l & a & b & E)]]; [rewrite E in Hlen; simpl in Hlen; lia..|].
    split.
    + rewrite (bind_Returns _ _ _ _ _ (swap_snoc2 _ _ _ _ E)).
      rewrite (swap_snoc2 (with_items (l ++ [b; a]) self) l b a eq_refl).
      now rewrite with_items_twice, <- E, with_items_same.
    + rewrite (bind_Returns _ _ _ _ _ (over_snoc2 _ _ _ _ E)).
      rewrite (drop_snoc (with_items (l ++ [a; b; a]) self) (l ++ [a; b]) a)
        by (cbn [with_items stack items]; now rewrite <- app_assoc).
      now rewrite with_items_twice, <- E, with_items_same.
  - intros Hlen.
    destruct (list_snoc_cases (items (stack self))) as [E|(l & x & E)];
      [rewrite E in Hlen; simpl in Hlen; lia|].
    rewrite (bind_Returns _ _ _ _ _ (dup_snoc _ _ _ E)).
    rewrite (drop_snoc (with_items (l ++ [x; x]) self) (l ++ [x]) x)
      by (cbn [with_items stack items]; now rewrite <- app_assoc).
    now rewrite with_items_twice, <- E, with_items_same.
Qed.

(** [dup drop] on the one-item stack [[7]] changes nothing. *)
Lemma stack_words_cancel_on_seven :
  (_ ← dup; drop) (with_items [7] Calculator_init)
  = (Returns tt, with_items [7] Calculator_init).
Proof.
  apply (proj2 (stack_words_cancel (with_items [7] Calculator_init))).
  simpl. lia.
Defined.

Lemma perform_operation_snoc2_outcome operation self l a b :
  items (stack self) = l ++ [a; b] →
  result_of (perform_operation operation self) ≠ Raises StackUnderflowError.
Proof.
  intros H. unfold perform_operation.
  read_items H. rewrite length_snoc2. cbn [Nat.ltb Nat.leb].
  pop_item self (l ++ [a]) b. pop_item self l a.
  destruct (String.eqb operation "/" && (b =? 0)); [discriminate|].
  destruct (operations operation); discriminate.
Qed.

(** X4. An underflow changes nothing: whenever [pop], [drop], [dup],
    [swap], [over] or [perform_operation] raises [StackUnderflowError], the
    instance is left exactly as it was (unlike a division by zero, which has
    already consumed its operands). *)
Theorem stack_underflow_leaves_instance self :
  (result_of (pop self) = Raises StackUnderflowError → self_after (pop self) = self) ∧
  (result_of (drop self) = Raises StackUnderflowError → self_after (drop self) = self) ∧
  (result_of (dup self) = Raises StackUnderflowError → self_after (dup self) = self) ∧
  (result_of (swap self) = Raises StackUnderflowError → self_after (swap self) = self) ∧
  (result_of (over self) = Raises StackUnderflowError → self_after (over self) = self) ∧
  (∀ operation,
     result_of (perform_operation operation self) = Raises StackUnderflowError →
     self_after (perform_operation operation self) = self).
Proof.
  repeat split.
  - destruct (list_snoc_cases (items (stack self))) as [E|(l & x & E)];
      [now rewrite (pop_nil _ E)|now rewrite (pop_snoc _ _ _ E)].
  - destruct (list_snoc_cases (items (stack self))) as [E|(l & x & E)];
      [now rewrite (drop_nil _ E)|now rewrite (drop_snoc _ _ _ E)].
  - destruct (list_snoc_cases (items (stack self))) as [E|(l & x & E)];
      [now rewrite (dup_nil _ E)|now rewrite (dup_snoc _ _ _ E)].
  - destruct (list_snoc2_cases (items (stack self)))
      as [E|[[x E]|(l & a & b & E)]];
      [rewrite swap_underflow by (rewrite E; simpl; lia); reflexivity..|].
    now rewrite (swap_snoc2 _ _ _ _ E).
  - destruct (list_snoc2_cases (items (stack self)))
      as [E|[[x E]|(l & a & b & E)]];
      [rewrite over_underflow by (rewrite E; simpl; lia); reflexivity..|].
    now rewrite (over_snoc2 _ _ _ _ E).
  - intros operation.
    destruct (list_snoc2_cases (items (stack self)))
      as [E|[[x E]|(l & a & b & E)]];
      [rewrite perform_operation_underflow by (rewrite E; simpl; lia); reflexivity..|].
    intros H. now destruct (perform_operation_snoc2_outcome operation _ _ _ _ E).
Qed.

(** X5. [get_last_item] never raises and never changes the instance: it
    returns the top item, or Python's [None] on an empty stack, where [pop]
    raises [StackUnderflowError]; on a stack that is not empty [pop] returns
    what [get_last_item] shows. *)
Theorem get_last_item_peeks self :
  get_last_item self = (Returns (last (items (stack self))), self)
  ∧ (items (stack self) = [] →
     get_last_item self = (Returns None, self)
     ∧ pop self = (Raises StackUnderflowError, self))
  ∧ (∀ l x, items (stack self) = l ++ [x] →
     get_last_item self = (Returns (Some x), self)
     ∧ pop self = (Returns x, with_items l self)).
Proof.
  assert (items (stack self) = [] → get_last_item self = (Returns None, self)) as Hnil.
  { intros E. unfold get_last_item, is_empty.
    rewrite (bind_Returns _ _ self true self); [reflexivity|].
    read_items E. reflexivity. }
  split; [|split].
  - destruct (list_snoc_cases (items (stack self))) as [E|(l & x & E)].
    + now rewrite (Hnil E), E.
    + now rewrite (get_last_item_snoc _ _ _ E), E, last_snoc.
  - intros E. split; [exact (Hnil E)|exact (pop_nil _ E)].
  - intros l x E. split; [exact (get_last_item_snoc _ _ _ E)|exact (pop_snoc _ _ _ E)].
Qed.

(** X6. What [evaluate] returns is the whole stack it leaves in the
    instance, bottom first: the returned list is [self.stack.items]. *)
Theorem evaluate_returns_the_stack depth input_data self l self' :
  evaluate depth input_data self = (Returns l, self') →
  items (stack self') = l.
Proof.
  destruct depth as [|depth]; [discriminate|].
  rewrite evaluate_S. unfold mbind, M_bind.
  destruct (define_words (segments input_data) self) as [[[]|e] self1];
    [|discriminate].
  destruct (select_operations (evaluate depth) (segments input_data) self1)
    as [[[]|e] self2]; [|discriminate].
  unfold get_items. now intros [= <- <-].
Qed.

(** After [1 2 over] the instance holds the three items returned. *)
Lemma evaluate_returns_the_stack_over :
  items (stack (self_after (evaluate 1 "1 2 over" Calculator_init))) = [1; 2; 1].
Proof.
  apply (evaluate_returns_the_stack 1 "1 2 over" Calculator_init [1; 2; 1]
           (self_after (evaluate 1 "1 2 over" Calculator_init))).
  vm_compute. reflexivity.
Defined.

(** ** Literals *)








(** X8. A word that passes [isdigit] but holds a character [int] does not
    read (a superscript digit) is taken for a literal and fails in [int]:
    the [evaluate] call that dispatches it raises [ValueError], and the
    instance stays as it was when the word was dispatched. *)
Theorem superscript_digit_raises depth input_data self word self' :
  dispatches depth input_data self word self' →
  PyStr.isdigit word = true →
  PyStr.all_chars PyStr.isdecimal_char word = false →
  evaluate depth input_data self = (Raises (ValueError Invalid_literal_for_int), self').
Proof.
  intros Hdisp Hdig Hdec.
  apply (dispatches_raises _ _ _ _ _ _ _ Hdisp).
  intros ev. unfold select_operation, PyStr.int. rewrite Hdig, Hdec.
  now destruct word.
Qed.

(** [1] followed by a superscript two. *)
Lemma superscript_two_raises :
  evaluate 1 (String "1" (String " " (String "178" ""))) Calculator_init
  = (Raises (ValueError Invalid_literal_for_int), with_items [1] Calculator_init).
Proof.
  apply (superscript_digit_raises 1 _ Calculator_init (String "178" "")).
  - apply (dispatches_here 0 _ _ ["1"] _ []).
    exists Calculator_init, (String "1" (String " " (String "178" ""))).
    repeat split; vm_compute; reflexivity.
  - reflexivity.
  - reflexivity.
Defined.

(** ** Definitions that cannot be read *)

Lemma split_space_once_no_space s :
  PyStr.contains " " s = false → PyStr.split_space_once s = [s].
Proof.
  induction s as [|ch s IH]; [reflexivity|].
  cbn [PyStr.contains PyStr.split_space_once]. rewrite orb_false_iff.
  intros [-> Hs]. now rewrite (IH Hs).
Qed.

Lemma define_word_without_text item piece self :
  PyStr.startswith ":" (PyStr.strip item) = true →
  PyStr.split_on ":" (PyStr.strip item) !! 1%nat = Some piece →
  PyStr.contains " " (PyStr.strip piece) = false →
  define_word item self = (Raises (ValueError Not_enough_values_to_unpack), self).
Proof.
  intros Hcolon Hpiece Hspace. unfold define_word.
  now rewrite Hcolon, Hpiece, (split_space_once_no_space _ Hspace).
Qed.

(** X9. A definition with a name and no text after it, such as [: b],
    makes [evaluate] raise [ValueError] in the definition pass: nothing is
    executed, the stack is what it was before the call, and the definitions
    of the segments before it stay registered. *)
Theorem definition_without_text_raises
    depth input_data self earlier item later piece self1 :
  segments input_data = earlier ++ item :: later →
  define_words earlier self = (Returns tt, self1) →
  PyStr.startswith ":" (PyStr.strip item) = true →
  PyStr.split_on ":" (PyStr.strip item) !! 1%nat = Some piece →
  PyStr.contains " " (PyStr.strip piece) = false →
  evaluate (S depth) input_data self
  = (Raises (ValueError Not_enough_values_to_unpack), self1)
  ∧ stack self1 = stack self.
Proof.
  intros Hsegs Hearlier Hcolon Hpiece Hspace. split.
  - apply evaluate_definitions_raise. rewrite Hsegs, define_words_app.
    rewrite (bind_Returns _ _ _ _ _ Hearlier). cbn [define_words].
    now rewrite (bind_Raises _ _ _ _ _
                   (define_word_without_text _ _ self1 Hcolon Hpiece Hspace)).
  - pose proof (define_words_stack earlier self) as H.
    now rewrite Hearlier in H.
Qed.

(** In [: a 1 ; : b ; 2 3 +] the word [a] is registered, [: b] raises and
    [2 3 +] is never executed. *)
Lemma definition_without_text_b :
  evaluate 1 ": a 1 ; : b ; 2 3 +" Calculator_init
  = (Raises (ValueError Not_enough_values_to_unpack),
     with_method "a" (Lambda "1") Calculator_init)
  ∧ stack (with_method "a" (Lambda "1") Calculator_init) = stack Calculator_init.
Proof.
  apply (definition_without_text_raises 0 ": a 1 ; : b ; 2 3 +" Calculator_init
           [": a 1 "] " : b " [" 2 3 +"] " b");
    vm_compute; reflexivity.
Defined.

(** ** The exceptions [evaluate] can raise *)

Lemma never_internal_ret {A : Type} (a : A) : never_internal (mret a).
Proof. intros self e. discriminate. Qed.

Lemma never_internal_raise {A : Type} e :
  internal_error e = false → never_internal (@raise A e).
Proof. intros He self e' [= <-]. exact He. Qed.

Lemma never_internal_bind {A B : Type} (m : M A) (k : A → M B) :
  never_internal m → (∀ a, never_internal (k a)) → never_internal (m ≫= k).
Proof.
  intros Hm Hk self e. specialize (Hm self e).
  unfold mbind, M_bind, result_of in *.
  destruct (m self) as [[a|e'] self1]; [apply Hk|].
  intros [= <-]. now apply Hm.
Qed.

Lemma never_internal_of_cases {A : Type} (m : M A) :
  (∀ self, (∃ a self', m self = (Returns a, self'))
           ∨ (∃ e self', m self = (Raises e, self') ∧ internal_error e = false)) →
  never_internal m.
Proof.
  intros H self e. destruct (H self) as [(a & self' & ->)|(e' & self' & -> & He)];
    [discriminate|]. now intros [= <-].
Qed.

Lemma never_internal_push item : never_internal (push item).
Proof. intros self e. discriminate. Qed.

Lemma never_internal_drop : never_internal drop.
Proof.
  apply never_internal_of_cases. intros self.
  destruct (list_snoc_cases (items (stack self))) as [E|(l & x & E)].
  - right. rewrite (drop_nil _ E). eauto.
  - left. rewrite (drop_snoc _ _ _ E). eauto.
Qed.

Lemma never_internal_dup : never_internal dup.
Proof.
  apply never_internal_of_cases. intros self.
  destruct (list_snoc_cases (items (stack self))) as [E|(l & x & E)].
  - right. rewrite (dup_nil _ E). eauto.
  - left. rewrite (dup_snoc _ _ _ E). eauto.
Qed.

Lemma never_internal_swap : never_internal swap.
Proof.
  apply never_internal_of_cases. intros self.
  destruct (list_snoc2_cases (items (stack self))) as [E|[[x E]|(l & a & b & E)]].
  - right. rewrite swap_underflow by (rewrite E; simpl; lia). eauto.
  - right. rewrite swap_underflow by (rewrite E; simpl; lia). eauto.
  - left. rewrite (swap_snoc2 _ _ _ _ E). eauto.
Qed.

Lemma never_internal_over : never_internal over.
Proof.
  apply never_internal_of_cases. intros self.
  destruct (list_snoc2_cases (items (stack self))) as [E|[[x E]|(l & a & b & E)]].
  - right. rewrite over_underflow by (rewrite E; simpl; lia). eauto.
  - right. rewrite over_underflow by (rewrite E; simpl; lia). eauto.
  - left. rewrite (over_snoc2 _ _ _ _ E). eauto.
Qed.

Lemma never_internal_perform_operation operation :
  is_Some (operations operation) → never_internal (perform_operation operation).
Proof.
  intros [f Hf]. apply never_internal_of_cases. intros self.
  destruct (list_snoc2_cases (items (stack self))) as [E|[[x E]|(l & a & b & E)]].
  - right. rewrite perform_operation_underflow by (rewrite E; simpl; lia). eauto.
  - right. rewrite perform_operation_underflow by (rewrite E; simpl; lia). eauto.
  - destruct (String.eqb operation "/" && (b =? 0)) eqn:Hz.
    + right. apply andb_true_iff in Hz as [Hop Hb].
      apply String.eqb_eq in Hop. apply Z.eqb_eq in Hb. subst.
      rewrite (perform_operation_zero _ _ _ E). eauto.
    + left. rewrite (perform_operation_snoc2 _ f _ _ _ _ E Hf Hz). eauto.
Qed.

Lemma split_on_second sep s :
  PyStr.startswith sep s = true → is_Some (PyStr.split_on sep s !! 1%nat).
Proof.
  destruct s as [|ch s]; [discriminate|]. cbn [PyStr.startswith PyStr.split_on].
  intros ->. pose proof (split_on_not_nil sep s).
  destruct (PyStr.split_on sep s); [congruence|]. now eexists.
Qed.

Lemma never_internal_define_word item : never_internal (define_word item).
Proof.
  unfold define_word.
  destruct (PyStr.startswith ":" (PyStr.strip item)) eqn:Hcolon;
    [|apply never_internal_ret].
  destruct (split_on_second _ _ Hcolon) as [piece ->].
  destruct (PyStr.split_space_once (PyStr.strip piece)) as [|? [|? [|? ?]]];
    first [now apply never_internal_raise | intros self e; discriminate].
Qed.

Lemma never_internal_define_words input_data : never_internal (define_words input_data).
Proof.
  induction input_data as [|item rest IH]; [apply never_internal_ret|].
  cbn [define_words]. apply never_internal_bind; [apply never_internal_define_word|].
  intros _. exact IH.
Qed.

Section Never_internal_dispatch.

Variable ev : string → M (list Z).
Hypothesis never_ev : ∀ input_data, never_internal (ev input_data).

Lemma never_internal_call m : never_internal (call ev m).
Proof.
  destruct m; cbn [call].
  - apply never_internal_drop.
  - apply never_internal_swap.
  - apply never_internal_dup.
  - apply never_internal_over.
  - apply never_internal_bind; [apply never_ev|intros ?; apply never_internal_ret].
Qed.

Lemma never_internal_select_operation word :
  never_internal (select_operation ev word).
Proof.
  unfold select_operation. destruct (PyStr.isdigit word).
  - destruct (PyStr.int word);
      [apply never_internal_push|now apply never_internal_raise].
  - case_bool_decide as Hop; [now apply never_internal_perform_operation|].
    apply never_internal_bind; [intros self e; discriminate|].
    intros table. destruct (table !! PyStr.lower word);
      [apply never_internal_call|now apply never_internal_raise].
Qed.

Lemma never_internal_for_words words : never_internal (for_words ev words).
Proof.
  induction words as [|word rest IH]; [apply never_internal_ret|].
  cbn [for_words]. apply never_internal_bind;
    [apply never_internal_select_operation|intros _; exact IH].
Qed.

End Never_internal_dispatch.

Lemma never_internal_evaluate depth input_data :
  never_internal (evaluate depth input_data).
Proof.
  revert input_data. induction depth as [|depth IH]; intros input_data;
    [now apply never_internal_raise|].
  intros self e. rewrite evaluate_S. revert self e.
  change (never_internal (_ ← define_words (segments input_data);
                          _ ← select_operations (evaluate depth) (segments input_data);
                          get_items)).
  apply never_internal_bind; [apply never_internal_define_words|]. intros _.
  apply never_internal_bind; [|intros _ self e; discriminate].
  unfold select_operations.
  destruct (segments_last input_data) as [segment ->].
  now apply never_internal_for_words.
Qed.

(** X10. Whatever the input and the state of the instance, the only
    exceptions [evaluate] raises are [StackUnderflowError],
    [ZeroDivisionError], [ValueError] and (when it runs out of call stack)
    [RecursionError]: the list and table accesses of the code are guarded, so
    no [IndexError] or [KeyError] escapes. *)
Theorem evaluate_raises_only depth input_data self e :
  result_of (evaluate depth input_data self) = Raises e →
  e = StackUnderflowError ∨ e = ZeroDivisionError
  ∨ (∃ why, e = ValueError why) ∨ e = RecursionError.
Proof.
  intros H. pose proof (never_internal_evaluate depth input_data self e H) as He.
  destruct e; try discriminate; eauto.
Qed.

(** [dup] on a fresh instance. *)
Lemma evaluate_raises_only_dup :
  result_of (evaluate 1 "dup" Calculator_init) = Raises StackUnderflowError
  ∧ (StackUnderflowError = StackUnderflowError
     ∨ StackUnderflowError = ZeroDivisionError
     ∨ (∃ why, StackUnderflowError = ValueError why)
     ∨ StackUnderflowError = RecursionError).
Proof.
  split; [reflexivity|].
  apply (evaluate_raises_only 1 "dup" Calculator_init StackUnderflowError).
  reflexivity.
Defined.

(** ** Letter case and blank input *)

Lemma lower_char_idempotent ch :
  PyStr.lower_char (PyStr.lower_char ch) = PyStr.lower_char ch.
Proof. destruct ch as [[] [] [] [] [] [] [] []]; reflexivity. Qed.

Lemma lower_idempotent s : PyStr.lower (PyStr.lower s) = PyStr.lower s.
Proof.
  induction s as [|ch s IH]; [reflexivity|].
  cbn [PyStr.lower]. now rewrite lower_char_idempotent, IH.
Qed.

(** X11. Input is read without regard to letter case: two inputs that are
    equal once lowercased give the same result and leave the same instance,
    so [DUP] is [dup] and a word defined as [Double] is called by [DOUBLE]. *)
Theorem evaluate_ignores_case depth input_data input_data' self :
  PyStr.lower input_data = PyStr.lower input_data' →
  evaluate depth input_data self = evaluate depth input_data' self.
Proof.
  intros Hlower. destruct depth as [|depth]; [reflexivity|].
  rewrite !evaluate_S. unfold segments. now rewrite Hlower.
Qed.

(** [: Double 2 * ; 5 DOUBLE] is [: double 2 * ; 5 double]. *)
Lemma evaluate_ignores_case_double :
  evaluate 2 ": Double 2 * ; 5 DOUBLE" Calculator_init
  = evaluate 2 ": double 2 * ; 5 double" Calculator_init.
Proof.
  apply (evaluate_ignores_case 2 ": Double 2 * ; 5 DOUBLE" ": double 2 * ; 5 double").
  reflexivity.
Defined.

(** Every input is its own lowercase form as far as [evaluate] goes. *)
Lemma evaluate_lower depth input_data self :
  evaluate depth (PyStr.lower input_data) self = evaluate depth input_data self.
Proof.
  destruct depth as [|depth]; [reflexivity|].
  rewrite !evaluate_S. unfold segments. now rewrite lower_idempotent.
Qed.

Lemma lower_char_space ch :
  PyStr.isspace_char ch = true → PyStr.lower_char ch = ch.
Proof. destruct ch as [[] [] [] [] [] [] [] []]; (reflexivity || discriminate). Qed.

Lemma lower_blank s :
  PyStr.all_chars PyStr.isspace_char s = true → PyStr.lower s = s.
Proof.
  induction s as [|ch s IH]; [reflexivity|].
  cbn [PyStr.all_chars PyStr.lower]. rewrite andb_true_iff. intros [Hc Hs].
  now rewrite (lower_char_space _ Hc), (IH Hs).
Qed.

Lemma split_blank s :
  PyStr.all_chars PyStr.isspace_char s = true → PyStr.split s = [].
Proof.
  induction s as [|ch s IH]; [reflexivity|].
  cbn [PyStr.all_chars PyStr.split]. rewrite andb_true_iff. intros [-> Hs].
  exact (IH Hs).
Qed.

Lemma lstrip_blank s :
  PyStr.all_chars PyStr.isspace_char s = true → PyStr.lstrip s = "".
Proof.
  induction s as [|ch s IH]; [reflexivity|].
  cbn [PyStr.all_chars PyStr.lstrip]. rewrite andb_true_iff. intros [-> Hs].
  exact (IH Hs).
Qed.

Lemma space_is_not_semicolon ch :
  PyStr.isspace_char ch = true → negb (Ascii.eqb ch ";") = true.
Proof.
  intros Hs. destruct (Ascii.eqb_spec ch ";") as [->|]; [discriminate|reflexivity].
Qed.

(** X12. An empty input, or one made of whitespace only, defines nothing
    and executes nothing: [evaluate] returns the stack as it stands and the
    instance is unchanged. *)
Theorem blank_input_returns_stack depth input_data self :
  PyStr.all_chars PyStr.isspace_char input_data = true →
  evaluate (S depth) input_data self = (Returns (items (stack self)), self).
Proof.
  intros Hblank.
  assert (segments input_data = [input_data]) as Hsegs.
  { unfold segments. rewrite (lower_blank _ Hblank).
    apply split_on_no_sep. revert Hblank.
    apply all_chars_impl, space_is_not_semicolon. }
  rewrite (evaluate_after_definitions depth input_data self self input_data).
  - now rewrite (split_blank _ Hblank).
  - rewrite Hsegs. cbn [define_words].
    rewrite (bind_Returns _ _ self tt self); [reflexivity|].
    apply define_word_ignores. unfold PyStr.strip.
    now rewrite (lstrip_blank _ Hblank).
  - now rewrite Hsegs.
Qed.

(** The empty input on a stack holding [4] and [2]. *)
Lemma blank_input_empty :
  evaluate 1 "" (with_items [4; 2] Calculator_init)
  = (Returns [4; 2], with_items [4; 2] Calculator_init).
Proof.
  apply (blank_input_returns_stack 0 "" (with_items [4; 2] Calculator_init)).
  reflexivity.
Defined.

(** ** Recursion *)

(** X13. Once an [evaluate] call ends without running out of call stack,
    a deeper call stack changes nothing: the same result and the same
    instance come out at every larger allowance. *)
Theorem deeper_call_stack_same_result depth depth' input_data self r self' :
  (depth ≤ depth')%nat →
  evaluate depth input_data self = (r, self') →
  overflowed r = false →
  evaluate depth' input_data self = (r, self').
Proof.
  intros Hle H Hr.
  replace depth' with ((depth' - depth) + depth)%nat by lia.
  now apply evaluate_deep_enough.
Qed.

(** [: double 2 * ; 5 double] needs two frames and gives [10] with fifty. *)
Lemma deeper_call_stack_double :
  evaluate 50 ": double 2 * ; 5 double" Calculator_init
  = (Returns [10], with_items [10] (with_method "double" (Lambda "2 *") Calculator_init)).
Proof.
  apply (deeper_call_stack_same_result 2 50 ": double 2 * ; 5 double" Calculator_init).
  - lia.
  - vm_compute. reflexivity.
  - reflexivity.
Defined.

(** X14. Recursion is not guarded: on an instance where [word] is bound
    to a text whose first word is [word] again, evaluating that text runs
    out of call stack at every allowance and leaves the instance as it
    was. *)
Theorem self_calling_word_overflows depth definition self segment word rest :
  define_words (segments definition) self = (Returns tt, self) →
  last (segments definition) = Some segment →
  PyStr.split segment = word :: rest →
  PyStr.isdigit word = false →
  operations word = None →
  other_methods self !! PyStr.lower word = Some (Lambda definition) →
  evaluate depth definition self = (Raises RecursionError, self).
Proof.
  intros Hdef Hlast Hsplit Hd Hop Hw.
  induction depth as [|depth IH]; [reflexivity|].
  assert (reaches depth definition self [] word rest self) as Hreach
    by (exists self, segment; repeat split; assumption).
  rewrite (evaluate_reaches_user_word _ _ _ _ _ _ _ _ Hreach Hd Hop Hw).
  now rewrite (bind_Raises _ _ _ _ _ IH).
Qed.

(** [foo] bound to the text [foo]. *)
Lemma self_calling_foo :
  evaluate 100 "foo" (with_method "foo" (Lambda "foo") Calculator_init)
  = (Raises RecursionError, with_method "foo" (Lambda "foo") Calculator_init).
Proof.
  apply (self_calling_word_overflows 100 "foo" _ "foo" "foo" []);
    vm_compute; reflexivity.
Defined.

(** ** Only the input's own definitions change the word table *)

Lemma contains_lower_colon s :
  PyStr.contains ":" (PyStr.lower s) = PyStr.contains ":" s.
Proof.
  induction s as [|ch s IH]; [reflexivity|].
  cbn [PyStr.lower PyStr.contains]. rewrite IH. f_equal.
  destruct ch as [[] [] [] [] [] [] [] []]; reflexivity.
Qed.

Lemma split_on_pieces_without_sep sep s :
  Forall (λ piece, PyStr.contains sep piece = false) (PyStr.split_on sep s).
Proof.
  induction s as [|ch s IH]; [repeat constructor|].
  cbn [PyStr.split_on]. destruct (Ascii.eqb ch sep) eqn:E;
    [constructor; [reflexivity|exact IH]|].
  destruct (PyStr.split_on sep s) as [|piece pieces]; [repeat constructor; cbn; now rewrite E|].
  inversion IH as [|? ? Hp Hps]; subst. constructor; [|exact Hps].
  cbn [PyStr.contains]. now rewrite E, Hp.
Qed.

Lemma split_on_pieces_without c sep s :
  PyStr.contains c s = false →
  Forall (λ piece, PyStr.contains c piece = false) (PyStr.split_on sep s).
Proof.
  induction s as [|ch s IH]; [repeat constructor|].
  cbn [PyStr.contains PyStr.split_on]. rewrite orb_false_iff. intros [Hch Hs].
  specialize (IH Hs). destruct (Ascii.eqb ch sep);
    [constructor; [reflexivity|exact IH]|].
  destruct (PyStr.split_on sep s) as [|piece pieces];
    [repeat constructor; cbn; now rewrite Hch|].
  inversion IH as [|? ? Hp Hps]; subst. constructor; [|exact Hps].
  cbn [PyStr.contains]. now rewrite Hch, Hp.
Qed.

Lemma split_space_once_pieces_without c s :
  PyStr.contains c s = false →
  Forall (λ piece, PyStr.contains c piece = false) (PyStr.split_space_once s).
Proof.
  induction s as [|ch s IH]; [repeat constructor|].
  cbn [PyStr.contains PyStr.split_space_once]. rewrite orb_false_iff. intros [Hch Hs].
  specialize (IH Hs). destruct (Ascii.eqb ch " "); [repeat constructor; exact Hs|].
  destruct (PyStr.split_space_once s) as [|piece pieces];
    [repeat constructor; cbn; now rewrite Hch|].
  inversion IH as [|? ? Hp Hps]; subst. constructor; [|exact Hps].
  cbn [PyStr.contains]. now rewrite Hch, Hp.
Qed.

Lemma lstrip_without c s :
  PyStr.contains c s = false → PyStr.contains c (PyStr.lstrip s) = false.
Proof.
  induction s as [|ch s IH]; [reflexivity|].
  cbn [PyStr.lstrip]. destruct (PyStr.isspace_char ch); [|easy].
  cbn [PyStr.contains]. rewrite orb_false_iff. intros [_ Hs]. exact (IH Hs).
Qed.

Lemma rstrip_without c s :
  PyStr.contains c s = false → PyStr.contains c (PyStr.rstrip s) = false.
Proof.
  induction s as [|ch s IH]; [reflexivity|].
  cbn [PyStr.contains PyStr.rstrip]. rewrite orb_false_iff. intros [Hch Hs].
  specialize (IH Hs). destruct (PyStr.rstrip s) as [|ch' kept].
  - destruct (PyStr.isspace_char ch); [reflexivity|]. cbn. now rewrite Hch.
  - cbn [PyStr.contains] in *. now rewrite Hch, IH.
Qed.

Lemma strip_without c s :
  PyStr.contains c s = false → PyStr.contains c (PyStr.strip s) = false.
Proof. intros H. unfold PyStr.strip. now apply rstrip_without, lstrip_without. Qed.

Lemma startswith_contains c s :
  PyStr.contains c s = false → PyStr.startswith c s = false.
Proof.
  destruct s as [|ch s]; [reflexivity|]. cbn [PyStr.contains PyStr.startswith].
  rewrite orb_false_iff. now intros [-> _].
Qed.

Lemma colon_free_init : colon_free (other_methods Calculator_init).
Proof.
  intros word definition. cbn [Calculator_init other_methods].
  rewrite !lookup_insert. repeat case_decide; try discriminate;
    now rewrite lookup_empty.
Qed.

Lemma colon_free_define_word item self :
  colon_free (other_methods self) →
  colon_free (other_methods (self_after (define_word item self))).
Proof.
  intros Hfree. unfold define_word.
  destruct (PyStr.startswith ":" (PyStr.strip item)); [|exact Hfree].
  destruct (PyStr.split_on ":" (PyStr.strip item) !! 1%nat) as [piece|] eqn:Hpiece;
    [|exact Hfree].
  pose proof (Forall_lookup_1 _ _ _ _
                (split_on_pieces_without_sep ":" (PyStr.strip item)) Hpiece) as Hp.
  cbv beta in Hp.
  pose proof (split_space_once_pieces_without ":" _ (strip_without ":" _ Hp)) as Hall.
  destruct (PyStr.split_space_once (PyStr.strip piece))
    as [|word_name [|definition [|? ?]]]; try exact Hfree.
  inversion Hall as [|? ? _ Hrest]; subst. inversion Hrest as [|? ? Hdef _]; subst.
  intros word text. cbn [self_after snd set_other_method with_method other_methods].
  rewrite lookup_insert. case_decide; [now intros [= <-]|apply Hfree].
Qed.

Lemma colon_free_define_words input_data self :
  colon_free (other_methods self) →
  colon_free (other_methods (self_after (define_words input_data self))).
Proof.
  revert self. induction input_data as [|item rest IH]; intros self Hfree;
    [exact Hfree|].
  cbn [define_words]. unfold mbind, M_bind.
  pose proof (colon_free_define_word item self Hfree) as H.
  destruct (define_word item self) as [[[]|e] self1]; [now apply IH|exact H].
Qed.

Lemma define_words_without_colon input_data self :
  Forall (λ item, PyStr.contains ":" item = false) input_data →
  define_words input_data self = (Returns tt, self).
Proof.
  induction 1 as [|item rest Hitem _ IH]; [reflexivity|].
  cbn [define_words].
  rewrite (bind_Returns _ _ self tt self); [exact IH|].
  now apply define_word_ignores, startswith_contains, strip_without.
Qed.

Lemma table_stable_ret {A : Type} (a : A) : table_stable (mret a).
Proof. now intros self. Qed.

Lemma table_stable_raise {A : Type} e : table_stable (@raise A e).
Proof. now intros self. Qed.

Lemma table_stable_bind {A B : Type} (m : M A) (k : A → M B) :
  table_stable m → (∀ a, table_stable (k a)) → table_stable (m ≫= k).
Proof.
  intros Hm Hk self Hfree. specialize (Hm self Hfree).
  unfold mbind, M_bind, self_after in *.
  destruct (m self) as [[a|e] self1]; cbn [snd] in *; [|exact Hm].
  rewrite <- Hm. apply Hk. now rewrite Hm.
Qed.

Lemma table_stable_keeps_table {A : Type} (m : M A) :
  (∀ self, other_methods (self_after (m self)) = other_methods self) →
  table_stable m.
Proof. intros H self _. apply H. Qed.

Lemma table_stable_get_items : table_stable get_items.
Proof. now intros self. Qed.

Lemma table_stable_set_items l : table_stable (set_items l).
Proof. now intros self. Qed.

Lemma table_stable_get_other_methods : table_stable get_other_methods.
Proof. now intros self. Qed.

Lemma table_stable_push item : table_stable (push item).
Proof. now intros self. Qed.

Ltac stable_step :=
  match goal with
  | |- table_stable (_ ≫= _) => apply table_stable_bind; [|intros ?]
  | |- table_stable (if ?b then _ else _) => destruct b
  | |- table_stable (match ?x with _ => _ end) => destruct x
  | |- table_stable _ =>
      first [ apply table_stable_ret | apply table_stable_raise
            | apply table_stable_get_items | apply table_stable_set_items
            | apply table_stable_get_other_methods | apply table_stable_push
            | assumption ]
  end.

Lemma table_stable_pop : table_stable pop.
Proof. unfold pop, is_empty. repeat stable_step. Qed.

Lemma table_stable_perform_operation operation :
  table_stable (perform_operation operation).
Proof.
  pose proof table_stable_pop. unfold perform_operation. repeat stable_step.
Qed.

Lemma table_stable_drop : table_stable drop.
Proof. pose proof table_stable_pop. unfold drop. repeat stable_step. Qed.

Lemma table_stable_swap : table_stable swap.
Proof. pose proof table_stable_pop. unfold swap. repeat stable_step. Qed.

Lemma table_stable_dup : table_stable dup.
Proof. unfold dup, get_last_item, is_empty. repeat stable_step. Qed.

Lemma table_stable_over : table_stable over.
Proof. unfold over. repeat stable_step. Qed.

Section Table_stable_dispatch.

Variable ev : string → M (list Z).
Hypothesis stable_ev : ∀ definition,
  PyStr.contains ":" definition = false → table_stable (ev definition).

Lemma table_stable_select_operation word : table_stable (select_operation ev word).
Proof.
  intros self Hfree. unfold select_operation.
  destruct (PyStr.isdigit word).
  - destruct (PyStr.int word); [now apply table_stable_push|reflexivity].
  - case_bool_decide; [now apply table_stable_perform_operation|].
    rewrite (bind_Returns get_other_methods _ self _ self eq_refl).
    destruct (other_methods self !! PyStr.lower word) as [m|] eqn:Hm; [|reflexivity].
    destruct m as [| | | |definition]; cbn [call].
    + now apply table_stable_drop.
    + now apply table_stable_swap.
    + now apply table_stable_dup.
    + now apply table_stable_over.
    + apply (table_stable_bind (ev definition) (λ _, mret tt));
        [apply stable_ev, (Hfree _ _ Hm)|intros ?; apply table_stable_ret|exact Hfree].
Qed.

Lemma table_stable_for_words words : table_stable (for_words ev words).
Proof.
  induction words as [|word rest IH]; [apply table_stable_ret|].
  cbn [for_words]. apply table_stable_bind;
    [apply table_stable_select_operation|intros _; exact IH].
Qed.

End Table_stable_dispatch.

Lemma table_stable_evaluate_text depth definition :
  PyStr.contains ":" definition = false → table_stable (evaluate depth definition).
Proof.
  revert definition. induction depth as [|depth IH]; intros definition Hdef;
    [apply table_stable_raise|].
  intros self Hfree. rewrite evaluate_S.
  rewrite (bind_Returns _ _ self tt self)
    by (apply define_words_without_colon, split_on_pieces_without;
        now rewrite contains_lower_colon).
  unfold select_operations. destruct (segments_last definition) as [segment ->].
  apply (table_stable_bind _ (λ _, get_items));
    [now apply table_stable_for_words|intros ?; apply table_stable_get_items|exact Hfree].
Qed.

(** X15. On an instance whose stored definitions hold no colon, as a fresh
    [Calculator] is and as every [evaluate] call leaves it, executing words
    never changes the word table, however deeply user words call each other:
    the table [evaluate] leaves is exactly the one its definition pass built,
    so only the [: name body] segments of the input itself define words. *)
Theorem execution_never_changes_word_table depth input_data self :
  colon_free (other_methods self) →
  other_methods (self_after (evaluate (S depth) input_data self))
  = other_methods (self_after (define_words (segments input_data) self))
  ∧ colon_free (other_methods (self_after (evaluate (S depth) input_data self))).
Proof.
  intros Hfree.
  pose proof (colon_free_define_words (segments input_data) self Hfree) as Hfree1.
  assert (other_methods (self_after (evaluate (S depth) input_data self))
          = other_methods (self_after (define_words (segments input_data) self))) as H.
  { rewrite evaluate_S. unfold self_after in *. unfold mbind at 1, M_bind at 1.
    destruct (define_words (segments input_data) self) as [[[]|e] self1];
      [|reflexivity].
    cbn [snd] in *. unfold select_operations.
    destruct (segments_last input_data) as [segment ->].
    apply (table_stable_bind _ (λ _, get_items));
      [|intros ?; apply table_stable_get_items|exact Hfree1].
    apply table_stable_for_words. intros definition.
    apply table_stable_evaluate_text. }
  split; [exact H|]. now rewrite H.
Qed.

(** From a fresh instance, [: double 2 * ; : quad double double ; 3 quad]
    leaves the built-in words, [double] and [quad], and nothing else. *)
Lemma execution_never_changes_word_table_quad :
  colon_free (other_methods Calculator_init)
  ∧ other_methods
      (self_after
         (evaluate 3 ": double 2 * ; : quad double double ; 3 quad" Calculator_init))
    = other_methods
        (with_method "quad" (Lambda "double double")
           (with_method "double" (Lambda "2 *") Calculator_init)).
Proof.
  split; [exact colon_free_init|].
  rewrite (proj1 (execution_never_changes_word_table 2
                    ": double 2 * ; : quad double double ; 3 quad"
                    Calculator_init colon_free_init)).
  vm_compute. reflexivity.
Defined.

(** ** Items below the operands are never touched *)

Lemma below_items l self : items (stack (below l self)) = l ++ items (stack self).
Proof. reflexivity. Qed.

Lemma below_with_items l l' self :
  with_items (l ++ l') (below l self) = below l (with_items l' self).
Proof. reflexivity. Qed.

Lemma framed_ret {A : Type} (a : A) : framed (mret a).
Proof. intros l self a' self' [= <- <-]. reflexivity. Qed.

Lemma framed_bind {A B : Type} (m : M A) (k : A → M B) :
  framed m → (∀ a, framed (k a)) → framed (m ≫= k).
Proof.
  intros Hm Hk l self b self'. unfold mbind, M_bind.
  destruct (m self) as [[a|e] self1] eqn:E; [|discriminate].
  rewrite (Hm l _ _ _ E). apply Hk.
Qed.

Lemma framed_push item : framed (push item).
Proof.
  intros l self [] self'. rewrite !push_eq. intros [= <-].
  rewrite below_items, <- app_assoc. reflexivity.
Qed.

Lemma framed_drop : framed drop.
Proof.
  intros l self [] self'.
  destruct (list_snoc_cases (items (stack self))) as [E|(s & x & E)];
    [now rewrite (drop_nil _ E)|].
  rewrite (drop_snoc _ _ _ E). intros [= <-].
  rewrite (drop_snoc (below l self) (l ++ s) x)
    by (rewrite below_items, E; now rewrite app_assoc).
  reflexivity.
Qed.

Lemma framed_dup : framed dup.
Proof.
  intros l self [] self'.
  destruct (list_snoc_cases (items (stack self))) as [E|(s & x & E)];
    [now rewrite (dup_nil _ E)|].
  rewrite (dup_snoc _ _ _ E). intros [= <-].
  rewrite (dup_snoc (below l self) (l ++ s) x)
    by (rewrite below_items, E; now rewrite app_assoc).
  rewrite <- app_assoc. reflexivity.
Qed.

Lemma framed_swap : framed swap.
Proof.
  intros l self [] self'.
  destruct (list_snoc2_cases (items (stack self))) as [E|[[x E]|(s & a & b & E)]];
    [now rewrite swap_underflow by (rewrite E; simpl; lia)..|].
  rewrite (swap_snoc2 _ _ _ _ E). intros [= <-].
  rewrite (swap_snoc2 (below l self) (l ++ s) a b)
    by (rewrite below_items, E; now rewrite app_assoc).
  rewrite <- app_assoc. reflexivity.
Qed.

Lemma framed_over : framed over.
Proof.
  intros l self [] self'.
  destruct (list_snoc2_cases (items (stack self))) as [E|[[x E]|(s & a & b & E)]];
    [now rewrite over_underflow by (rewrite E; simpl; lia)..|].
  rewrite (over_snoc2 _ _ _ _ E). intros [= <-].
  rewrite (over_snoc2 (below l self) (l ++ s) a b)
    by (rewrite below_items, E; now rewrite app_assoc).
  rewrite <- app_assoc. reflexivity.
Qed.

Lemma framed_perform_operation operation :
  is_Some (operations operation) → framed (perform_operation operation).
Proof.
  intros [f Hf] l self [] self'.
  destruct (list_snoc2_cases (items (stack self))) as [E|[[x E]|(s & a & b & E)]];
    [now rewrite perform_operation_underflow by (rewrite E; simpl; lia)..|].
  destruct (String.eqb operation "/" && (b =? 0)) eqn:Hz.
  - apply andb_true_iff in Hz as [Hop Hb].
    apply String.eqb_eq in Hop. apply Z.eqb_eq in Hb. subst.
    now rewrite (perform_operation_zero _ _ _ E).
  - rewrite (perform_operation_snoc2 _ f _ _ _ _ E Hf Hz). intros [= <-].
    rewrite (perform_operation_snoc2 operation f (below l self) (l ++ s) a b)
      by (first [assumption | rewrite below_items, E; now rewrite app_assoc]).
    rewrite <- app_assoc. reflexivity.
Qed.

Lemma define_word_below item l self :
  define_word item (below l self)
  = ((define_word item self).1, below l (define_word item self).2).
Proof.
  unfold define_word.
  destruct (PyStr.startswith ":" (PyStr.strip item)); [|reflexivity].
  destruct (PyStr.split_on ":" (PyStr.strip item) !! 1%nat); [|reflexivity].
  destruct (PyStr.split_space_once (PyStr.strip s)) as [|? [|? [|? ?]]]; reflexivity.
Qed.

Lemma framed_define_words input_data : framed (define_words input_data).
Proof.
  induction input_data as [|item rest IH]; [apply framed_ret|].
  cbn [define_words]. apply framed_bind; [|intros _; exact IH].
  intros l self [] self' H. now rewrite define_word_below, H.
Qed.

Section Framed_dispatch.

Variable ev : string → M (list Z).
Hypothesis framed_ev : ∀ definition, framed_stack (ev definition).

Lemma framed_select_operation word : framed (select_operation ev word).
Proof.
  intros l self [] self'. unfold select_operation.
  destruct (PyStr.isdigit word).
  - destruct (PyStr.int word); [apply framed_push|discriminate].
  - case_bool_decide; [now apply framed_perform_operation|].
    rewrite !(bind_Returns get_other_methods _ _ _ _ eq_refl).
    change (other_methods (below l self)) with (other_methods self).
    destruct (other_methods self !! PyStr.lower word) as [m|]; [|discriminate].
    destruct m as [| | | |definition]; cbn [call].
    + apply framed_drop.
    + apply framed_swap.
    + apply framed_dup.
    + apply framed_over.
    + unfold mbind, M_bind.
      destruct (ev definition self) as [[r|e] self1] eqn:E; [|discriminate].
      rewrite (framed_ev _ l _ _ _ E). now intros [= <-].
Qed.

Lemma framed_for_words words : framed (for_words ev words).
Proof.
  induction words as [|word rest IH]; [apply framed_ret|].
  cbn [for_words]. apply framed_bind;
    [apply framed_select_operation|intros _; exact IH].
Qed.

End Framed_dispatch.

Lemma framed_stack_evaluate depth input_data : framed_stack (evaluate depth input_data).
Proof.
  revert input_data. induction depth as [|depth IH]; intros input_data l self r self';
    [discriminate|].
  intros H. rewrite evaluate_S in H. rewrite evaluate_S.
  unfold mbind, M_bind in H.
  destruct (define_words (segments input_data) self) as [[[]|e] self1] eqn:Edef;
    [|discriminate].
  rewrite (bind_Returns _ _ _ _ _ (framed_define_words _ l _ _ _ Edef)).
  destruct (select_operations (evaluate depth) (segments input_data) self1)
    as [[[]|e] self2] eqn:Esel; [|discriminate].
  unfold select_operations in *.
  destruct (segments_last input_data) as [segment Hlast]. rewrite Hlast in *.
  rewrite (bind_Returns _ _ _ _ _ (framed_for_words _ IH _ l _ _ _ Esel)).
  unfold get_items in *. now injection H as <- <-.
Qed.

(** X16. Words only work on the top of the stack: when [evaluate] returns
    a stack [r] from some instance, then from the same instance with any
    items [l] lying below its stack it returns [l] followed by [r], and
    leaves the same word table; the items below are neither read nor
    changed. *)
Theorem evaluate_leaves_items_below depth input_data l self r self' :
  evaluate depth input_data self = (Returns r, self') →
  evaluate depth input_data (below l self) = (Returns (l ++ r), below l self').
Proof. apply framed_stack_evaluate. Qed.

(** [: double 2 * ; 5 double] on top of [8] and [9]. *)
Lemma evaluate_leaves_items_below_double :
  result_of
    (evaluate 2 ": double 2 * ; 5 double" (with_items [8; 9] Calculator_init))
  = Returns [8; 9; 10].
Proof.
  change (with_items [8; 9] Calculator_init) with (below [8; 9] Calculator_init).
  rewrite (evaluate_leaves_items_below 2 ": double 2 * ; 5 double" [8; 9]
             Calculator_init [10]
             (with_items [10] (with_method "double" (Lambda "2 *") Calculator_init))).
  - reflexivity.
  - vm_compute. reflexivity.
Defined.
